(** * chproxy: request scopes, concurrency accounting, host selection and
      the kill-query protocol (scope.go)

    A shallow embedding of [scope.go].  Go pointers ([*user], [*clusterUser],
    [*host], [*cluster]) are indices into a store; [uint32] values are
    integers with the wrap-around of the machine type written out; the
    methods run in a small state monad over the store that can also panic
    (nil dereference, index out of range, division by zero).  A trace of the
    counter updates and of the HTTP calls is kept next to the store so that
    statements about order and about the requests that were issued can be
    made. *)

From Stdlib Require Import ZArith Ascii String DecimalString Lia.
From stdpp Require Import base list strings gmap.

Local Open Scope Z_scope.

(** ** Machine integers *)

Definition uint32_modulus : Z := 2 ^ 32.

(** The value a [uint32] computation keeps of an integer result. *)
Definition wrap32 (z : Z) : Z := z mod uint32_modulus.

Definition is_uint32 (z : Z) : Prop := 0 <= z < uint32_modulus.

Definition min_int64 : Z := - 2 ^ 63.
Definition max_int64 : Z := 2 ^ 63 - 1.

(** [atomic.AddUint32(&x, delta)] on the contents [x]: the new value. *)
Definition atomic_AddUint32 (x delta : Z) : Z := wrap32 (x + delta).

(** [fmt]'s [%d] verb. *)
Definition fmt_d (z : Z) : string := NilZero.string_of_int (Z.to_int z).

(** ** Floating point arguments

    [killQueries] receives a [float64] and only converts it to [int].  A
    finite [float64] is a dyadic rational [m * 2^e]; the conversion drops
    the fraction (truncation towards zero). *)

Inductive float64 : Type :=
| F_nan
| F_inf (negative : bool)
| F_finite (m e : Z).

Definition float64_trunc (m e : Z) : Z :=
  if 0 <=? e then m * 2 ^ e else Z.quot m (2 ^ (- e)).

(** ** The world outside [scope.go]

    The packages [fmt], [net/url] and [net/http], and the network itself,
    are taken as parameters. *)

Record URL : Type := {
  Scheme : string;
  Host : string;
  Path : string
}.

Record Request : Type := {
  req_method : string;
  req_url : string;
  req_body : string;
  req_auth : option (string * string)
}.

Record Response : Type := {
  StatusCode : Z;
  Body : string
}.

Definition StatusOK : Z := 200.

(** ** Data model *)

Definition ptr : Type := nat.

Record queryCounter : Type := { value : Z }.

(** The field [allowedNetworks] of [user] has a type declared in package
    [config]; nothing in this file reads it and it is left out. *)
Record user : Type := {
  u_toUser : string;
  u_toCluster : string;
  u_name : string;
  u_password : string;
  u_maxExecutionTime : Z;
  u_maxConcurrentQueries : Z;
  u_queryCounter : queryCounter
}.

Record clusterUser : Type := {
  cu_name : string;
  cu_password : string;
  cu_maxExecutionTime : Z;
  cu_maxConcurrentQueries : Z;
  cu_queryCounter : queryCounter
}.

Record host : Type := {
  addr : URL;
  h_queryCounter : queryCounter
}.

Record cluster : Type := {
  nextIdx : Z;
  c_hosts : list ptr;
  c_users : gmap string ptr;
  killQueryUserName : string;
  killQueryUserPassword : string
}.

Record scope : Type := {
  s_id : Z;
  s_host : ptr;
  s_cluster : ptr;
  s_user : ptr;
  s_clusterUser : ptr
}.

(** ** Traces *)

Inductive counter_ref : Type :=
| UserCounter (p : ptr)
| ClusterUserCounter (p : ptr)
| HostCounter (p : ptr).

Inductive event : Type :=
| EvInc (c : counter_ref)
| EvDec (c : counter_ref)
| EvNewRequest (method url body : string)
| EvDo (req : Request).

(** ** Store *)

Record world : Type := {
  users : list user;
  clusterUsers : list clusterUser;
  hosts : list host;
  clusters : list cluster;
  scopeId : Z;
  trace : list event
}.

Definition set_users (f : list user -> list user) (w : world) : world :=
  {| users := f (users w); clusterUsers := clusterUsers w; hosts := hosts w;
     clusters := clusters w; scopeId := scopeId w; trace := trace w |}.

Definition set_clusterUsers (f : list clusterUser -> list clusterUser)
    (w : world) : world :=
  {| users := users w; clusterUsers := f (clusterUsers w); hosts := hosts w;
     clusters := clusters w; scopeId := scopeId w; trace := trace w |}.

Definition set_hosts (f : list host -> list host) (w : world) : world :=
  {| users := users w; clusterUsers := clusterUsers w; hosts := f (hosts w);
     clusters := clusters w; scopeId := scopeId w; trace := trace w |}.

Definition set_clusters (f : list cluster -> list cluster) (w : world) : world :=
  {| users := users w; clusterUsers := clusterUsers w; hosts := hosts w;
     clusters := f (clusters w); scopeId := scopeId w; trace := trace w |}.

Definition set_scopeId (z : Z) (w : world) : world :=
  {| users := users w; clusterUsers := clusterUsers w; hosts := hosts w;
     clusters := clusters w; scopeId := z; trace := trace w |}.

Definition set_trace (f : list event -> list event) (w : world) : world :=
  {| users := users w; clusterUsers := clusterUsers w; hosts := hosts w;
     clusters := clusters w; scopeId := scopeId w; trace := f (trace w) |}.

(** ** The monad of the methods *)

Inductive result (A : Type) : Type :=
| Done (a : A) (w : world)
| Panic
| OutOfFuel.

Arguments Done {A} a w.
Arguments Panic {A}.
Arguments OutOfFuel {A}.

Definition M (A : Type) : Type := world -> result A.

Definition ret {A : Type} (a : A) : M A := fun w => Done a w.

Definition bind {A B : Type} (m : M A) (k : A -> M B) : M B :=
  fun w =>
    match m w with
    | Done a w' => k a w'
    | Panic => Panic
    | OutOfFuel => OutOfFuel
    end.

Definition panic {A : Type} : M A := fun _ => Panic.
Definition out_of_fuel {A : Type} : M A := fun _ => OutOfFuel.

Declare Scope go_scope.
Delimit Scope go_scope with go.
Notation "x <- c1 ;; c2" := (bind c1 (fun x => c2))
  (at level 100, c1 at next level, right associativity) : go_scope.
Notation "c1 ;;; c2" := (bind c1 (fun _ => c2))
  (at level 100, right associativity) : go_scope.

Local Open Scope go_scope.

Definition emit (e : event) : M unit :=
  fun w => Done tt (set_trace (fun t => t ++ [e]) w).

(** Dereferences; a pointer that is not in the store is nil. *)
Definition deref {A : Type} (sel : world -> list A) (p : ptr) : M A :=
  fun w => match sel w !! p with Some a => Done a w | None => Panic end.

(** [xs[i]] on a slice, with the bounds check of the language. *)
Definition index {A : Type} (xs : list A) (i : Z) : M A :=
  match xs !! Z.to_nat i with
  | Some a => ret a
  | None => panic
  end.

(** [a % b] on unsigned integers; division by zero panics. *)
Definition go_mod (a b : Z) : M Z :=
  if b =? 0 then panic else ret (a mod b).

(** ** queryCounter *)

Definition queryCounter_runningQueries (qc : queryCounter) : Z := value qc.

Definition queryCounter_inc (qc : queryCounter) : Z * queryCounter :=
  let v := atomic_AddUint32 (value qc) 1 in (v, {| value := v |}).

(** [^uint32(0)] is the complement of zero on 32 bits. *)
Definition queryCounter_dec (qc : queryCounter) : queryCounter :=
  {| value := atomic_AddUint32 (value qc) (wrap32 (Z.lnot 0)) |}.

(** [user], [clusterUser] and [host] embed a [queryCounter]; the promoted
    methods act on the counter of the record the pointer refers to. *)

Definition with_u_queryCounter (qc : queryCounter) (u : user) : user :=
  {| u_toUser := u_toUser u; u_toCluster := u_toCluster u; u_name := u_name u;
     u_password := u_password u; u_maxExecutionTime := u_maxExecutionTime u;
     u_maxConcurrentQueries := u_maxConcurrentQueries u;
     u_queryCounter := qc |}.

Definition with_cu_queryCounter (qc : queryCounter) (cu : clusterUser)
    : clusterUser :=
  {| cu_name := cu_name cu; cu_password := cu_password cu;
     cu_maxExecutionTime := cu_maxExecutionTime cu;
     cu_maxConcurrentQueries := cu_maxConcurrentQueries cu;
     cu_queryCounter := qc |}.

Definition with_h_queryCounter (qc : queryCounter) (h : host) : host :=
  {| addr := addr h; h_queryCounter := qc |}.

Definition load_counter (r : counter_ref) : M queryCounter :=
  match r with
  | UserCounter p => u <- deref users p ;; ret (u_queryCounter u)
  | ClusterUserCounter p => cu <- deref clusterUsers p ;; ret (cu_queryCounter cu)
  | HostCounter p => h <- deref hosts p ;; ret (h_queryCounter h)
  end.

Definition store_counter (r : counter_ref) (qc : queryCounter) : M unit :=
  match r with
  | UserCounter p =>
      u <- deref users p ;;
      fun w => Done tt (set_users (fun l => <[p := with_u_queryCounter qc u]> l) w)
  | ClusterUserCounter p =>
      cu <- deref clusterUsers p ;;
      fun w => Done tt
        (set_clusterUsers (fun l => <[p := with_cu_queryCounter qc cu]> l) w)
  | HostCounter p =>
      h <- deref hosts p ;;
      fun w => Done tt (set_hosts (fun l => <[p := with_h_queryCounter qc h]> l) w)
  end.

Definition runningQueries (r : counter_ref) : M Z :=
  qc <- load_counter r ;; ret (queryCounter_runningQueries qc).

Definition inc (r : counter_ref) : M Z :=
  qc <- load_counter r ;;
  let '(v, qc') := queryCounter_inc qc in
  store_counter r qc' ;;;
  emit (EvInc r) ;;;
  ret v.

Definition dec (r : counter_ref) : M unit :=
  qc <- load_counter r ;;
  store_counter r (queryCounter_dec qc) ;;;
  emit (EvDec r).

(** ** Parameters: library functions and the network *)

Class Externals : Type := {
  (** [fmt]'s [%q] verb on a string or a byte slice. *)
  strconv_Quote : string -> string;
  (** The [String] method of [url.URL]. *)
  URL_String : URL -> string;
  (** The error of [http.NewRequest] for a method and a URL, if any. *)
  http_NewRequest_error : string -> string -> option string;
  (** [client.Do]: what the network answers to a request, given all that
      happened before; [inl] is a transport error. *)
  client_Do_answer : list event -> Request -> string + Response;
  (** The value of a [float64] to [int] conversion when the integer part is
      not representable (which the language leaves to the implementation). *)
  float64_to_int_unrepresentable : float64 -> Z
}.

Section Scope.

Context {ext : Externals}.

(** [int(f)] for [f] of type [float64], with 64-bit [int]. *)
Definition int_of_float64 (f : float64) : Z :=
  match f with
  | F_finite m e =>
      let t := float64_trunc m e in
      if (min_int64 <=? t) && (t <=? max_int64) then t
      else float64_to_int_unrepresentable f
  | _ => float64_to_int_unrepresentable f
  end.

(** [http.NewRequest(method, url, body)]. *)
Definition http_NewRequest (method url body : string) : string + Request :=
  match http_NewRequest_error method url with
  | Some err => inl err
  | None => inr {| req_method := method; req_url := url; req_body := body;
                   req_auth := None |}
  end.

(** Modelled from the spec: [setAuth] is defined in another file of the
    package; the specification says that the kill statement is issued as an
    authenticated request with the administrative credential of the cluster,
    so the credential is attached to the request and nothing else changes. *)
Definition setAuth (req : Request) (name password : string) : Request :=
  {| req_method := req_method req; req_url := req_url req;
     req_body := req_body req; req_auth := Some (name, password) |}.

Definition client_Do (req : Request) : M (string + Response) :=
  fun w =>
    Done (client_Do_answer (trace w) req)
         (set_trace (fun t => t ++ [EvDo req]) w).

(** ** getHost: least loaded host, round robin *)

Fixpoint getHost_loop (fuel : nat) (c : ptr) (l idx i : Z)
    (idle : ptr) (idleN : Z) : M ptr :=
  if i =? idx then ret idle
  else
    match fuel with
    | O => out_of_fuel
    | S fuel' =>
        cl <- deref clusters c ;;
        h <- index (c_hosts cl) i ;;
        n <- runningQueries (HostCounter h) ;;
        if n =? 0 then ret h
        else
          let '(idle', idleN') := if n <? idleN then (h, n) else (idle, idleN) in
          i' <- go_mod (wrap32 (i + 1)) l ;;
          getHost_loop fuel' c l idx i' idle' idleN'
    end.

Definition with_nextIdx (v : Z) (cl : cluster) : cluster :=
  {| nextIdx := v; c_hosts := c_hosts cl; c_users := c_users cl;
     killQueryUserName := killQueryUserName cl;
     killQueryUserPassword := killQueryUserPassword cl |}.

(** [atomic.AddUint32(&c.nextIdx, delta)]. *)
Definition add_nextIdx (c : ptr) (delta : Z) : M Z :=
  cl <- deref clusters c ;;
  let v := atomic_AddUint32 (nextIdx cl) delta in
  fun w => Done v (set_clusters (fun l => <[c := with_nextIdx v cl]> l) w).

Definition getHost (c : ptr) : M ptr :=
  idx <- add_nextIdx c 1 ;;
  cl <- deref clusters c ;;
  let l := wrap32 (Z.of_nat (length (c_hosts cl))) in
  idx <- go_mod idx l ;;
  idle <- index (c_hosts cl) idx ;;
  idleN <- runningQueries (HostCounter idle) ;;
  if idleN =? 0 then ret idle
  else
    i <- go_mod (wrap32 (idx + 1)) l ;;
    getHost_loop (length (c_hosts cl)) c l idx i idle idleN.

(** ** scope *)

Definition add_scopeId (delta : Z) : M Z :=
  fun w =>
    let v := atomic_AddUint32 (scopeId w) delta in Done v (set_scopeId v w).

Definition newScope (u cu c : ptr) : M scope :=
  id <- add_scopeId 1 ;;
  h <- getHost c ;;
  ret {| s_id := id; s_host := h; s_cluster := c; s_user := u;
         s_clusterUser := cu |}.

Definition scope_dec (s : scope) : M unit :=
  dec (HostCounter (s_host s)) ;;;
  dec (UserCounter (s_user s)) ;;;
  dec (ClusterUserCounter (s_clusterUser s)).

Definition user_limit_error (u : user) : string :=
  "limits for user " +:+ strconv_Quote (u_name u)
  +:+ " are exceeded: maxConcurrentQueries limit: "
  +:+ fmt_d (u_maxConcurrentQueries u).

Definition clusterUser_limit_error (cu : clusterUser) : string :=
  "limits for cluster user " +:+ strconv_Quote (cu_name cu)
  +:+ " are exceeded: maxConcurrentQueries limit: "
  +:+ fmt_d (cu_maxConcurrentQueries cu).

Definition scope_inc (s : scope) : M (option string) :=
  uq <- inc (UserCounter (s_user s)) ;;
  cq <- inc (ClusterUserCounter (s_clusterUser s)) ;;
  inc (HostCounter (s_host s)) ;;;
  u <- deref users (s_user s) ;;
  cu <- deref clusterUsers (s_clusterUser s) ;;
  let err : option string := None in
  let err :=
    if (0 <? u_maxConcurrentQueries u) && (u_maxConcurrentQueries u <? uq)
    then Some (user_limit_error u) else err in
  let err :=
    if (0 <? cu_maxConcurrentQueries cu) && (cu_maxConcurrentQueries cu <? cq)
    then Some (clusterUser_limit_error cu) else err in
  match err with
  | Some e => scope_dec s ;;; ret (Some e)
  | None => ret None
  end.

(** ** killQueries *)

Definition kill_statement (ua : string) (elapsed : float64) : string :=
  "KILL QUERY WHERE http_user_agent = '" +:+ ua +:+ "' AND elapsed >= "
  +:+ fmt_d (int_of_float64 elapsed).

Fixpoint killQueries_range (cl : cluster) (query : string)
    (hs : list ptr) : M (option string) :=
  match hs with
  | [] => ret None
  | hp :: rest =>
      h <- deref hosts hp ;;
      let addr := URL_String (addr h) in
      emit (EvNewRequest "POST" addr query) ;;;
      match http_NewRequest "POST" addr query with
      | inl err =>
          ret (Some ("error while creating kill query request to " +:+ addr
                     +:+ ": " +:+ err))
      | inr req =>
          let req :=
            setAuth req (killQueryUserName cl) (killQueryUserPassword cl) in
          r <- client_Do req ;;
          match r with
          | inl err =>
              ret (Some ("error while executing clickhouse query "
                         +:+ strconv_Quote query +:+ " at "
                         +:+ strconv_Quote addr +:+ ": " +:+ err))
          | inr resp =>
              if negb (StatusCode resp =? StatusOK)
              then
                let responseBody := Body resp in
                ret (Some ("unexpected status code returned from query "
                           +:+ strconv_Quote query +:+ " at "
                           +:+ strconv_Quote addr +:+ ": "
                           +:+ fmt_d (StatusCode resp)
                           +:+ ". Response body: "
                           +:+ strconv_Quote responseBody))
              else killQueries_range cl query rest
          end
      end
  end.

Definition killQueries (c : ptr) (ua : string) (elapsed : float64)
    : M (option string) :=
  cl <- deref clusters c ;;
  if (String.length (killQueryUserName cl) =? 0)%nat then ret None
  else
    let query := kill_statement ua elapsed in
    killQueries_range cl query (c_hosts cl).

End Scope.

(** ** Typing invariant of the store: counters hold [uint32] values *)

Definition wf_counter (qc : queryCounter) : Prop := is_uint32 (value qc).

Record wf_world (w : world) : Prop := {
  wf_users : Forall (fun u => wf_counter (u_queryCounter u)) (users w);
  wf_clusterUsers :
    Forall (fun cu => wf_counter (cu_queryCounter cu)) (clusterUsers w);
  wf_hosts : Forall (fun h => wf_counter (h_queryCounter h)) (hosts w)
}.

(** The events a run added to the trace. *)
Definition new_events (w w' : world) : list event :=
  drop (length (trace w)) (trace w').

Definition occurs_before (a b : event) (tr : list event) : Prop :=
  exists i j : nat, tr !! i = Some a /\ tr !! j = Some b /\ (i < j)%nat.

(** The order claimed for the three increments of [scope.inc]: the one of
    the host comes before the ones of the user and of the cluster user. *)
Definition host_incremented_first (s : scope) (tr : list event) : Prop :=
  occurs_before (EvInc (HostCounter (s_host s)))
                (EvInc (UserCounter (s_user s))) tr
  /\ occurs_before (EvInc (HostCounter (s_host s)))
                   (EvInc (ClusterUserCounter (s_clusterUser s))) tr.

(** The store after the three increments of [scope.inc]. *)
Definition after_inc (s : scope) (u : user) (cu : clusterUser) (h : host)
    (w : world) : world :=
  {| users :=
       <[s_user s :=
           with_u_queryCounter (queryCounter_inc (u_queryCounter u)).2 u]>
         (users w);
     clusterUsers :=
       <[s_clusterUser s :=
           with_cu_queryCounter (queryCounter_inc (cu_queryCounter cu)).2 cu]>
         (clusterUsers w);
     hosts :=
       <[s_host s :=
           with_h_queryCounter (queryCounter_inc (h_queryCounter h)).2 h]>
         (hosts w);
     clusters := clusters w;
     scopeId := scopeId w;
     trace := trace w ++ [EvInc (UserCounter (s_user s));
                          EvInc (ClusterUserCounter (s_clusterUser s));
                          EvInc (HostCounter (s_host s))] |}.

(** The store after the three decrements of [scope.dec]. *)
Definition after_dec (s : scope) (u : user) (cu : clusterUser) (h : host)
    (w : world) : world :=
  {| users :=
       <[s_user s := with_u_queryCounter (queryCounter_dec (u_queryCounter u)) u]>
         (users w);
     clusterUsers :=
       <[s_clusterUser s :=
           with_cu_queryCounter (queryCounter_dec (cu_queryCounter cu)) cu]>
         (clusterUsers w);
     hosts :=
       <[s_host s := with_h_queryCounter (queryCounter_dec (h_queryCounter h)) h]>
         (hosts w);
     clusters := clusters w;
     scopeId := scopeId w;
     trace := trace w ++ [EvDec (HostCounter (s_host s));
                          EvDec (UserCounter (s_user s));
                          EvDec (ClusterUserCounter (s_clusterUser s))] |}.

(** The two limit checks of [scope.inc] on the post-increment counts. *)
Definition user_exceeded (u : user) : Prop :=
  0 < u_maxConcurrentQueries u
  /\ u_maxConcurrentQueries u < (queryCounter_inc (u_queryCounter u)).1.

Definition clusterUser_exceeded (cu : clusterUser) : Prop :=
  0 < cu_maxConcurrentQueries cu
  /\ cu_maxConcurrentQueries cu < (queryCounter_inc (cu_queryCounter cu)).1.

(** The error value [scope.inc] has built when it reaches its last test. *)
Definition inc_error {ext : Externals} (u : user) (cu : clusterUser) : option string :=
  let uq := (queryCounter_inc (u_queryCounter u)).1 in
  let cq := (queryCounter_inc (cu_queryCounter cu)).1 in
  let err : option string := None in
  let err :=
    if (0 <? u_maxConcurrentQueries u) && (u_maxConcurrentQueries u <? uq)
    then Some (user_limit_error u) else err in
  if (0 <? cu_maxConcurrentQueries cu) && (cu_maxConcurrentQueries cu <? cq)
  then Some (clusterUser_limit_error cu) else err.

(** ** Sample stores

    A cluster of three hosts behind one user and one cluster user, and an
    environment in which the host [n2] answers with status 500. *)

Definition double_quote : string := String (Ascii.ascii_of_nat 34) EmptyString.

Definition sample_ext : Externals :=
  {| strconv_Quote := fun s => double_quote +:+ s +:+ double_quote;
     URL_String := fun u => Scheme u +:+ "://" +:+ Host u +:+ Path u;
     http_NewRequest_error := fun _ _ => None;
     client_Do_answer := fun _ req =>
       if String.eqb (req_url req) "http://n2/"
       then inr {| StatusCode := 500; Body := "boom" |}
       else inr {| StatusCode := StatusOK; Body := "ok" |};
     float64_to_int_unrepresentable := fun _ => min_int64 |}.

Definition sample_user (limit running : Z) : user :=
  {| u_toUser := "default"; u_toCluster := "stats"; u_name := "web";
     u_password := "secret"; u_maxExecutionTime := 0;
     u_maxConcurrentQueries := limit;
     u_queryCounter := {| value := running |} |}.

Definition sample_clusterUser (limit running : Z) : clusterUser :=
  {| cu_name := "default"; cu_password := "secret"; cu_maxExecutionTime := 0;
     cu_maxConcurrentQueries := limit;
     cu_queryCounter := {| value := running |} |}.

Definition sample_host (name : string) (running : Z) : host :=
  {| addr := {| Scheme := "http"; Host := name; Path := "/" |};
     h_queryCounter := {| value := running |} |}.

Definition sample_cluster (cursor : Z) (admin : string) : cluster :=
  {| nextIdx := cursor; c_hosts := [0; 1; 2]%nat; c_users := ∅;
     killQueryUserName := admin; killQueryUserPassword := "s3cr3t" |}.

Definition sample_world (u : user) (cu : clusterUser) (loads : Z * Z * Z)
    (c : cluster) : world :=
  {| users := [u]; clusterUsers := [cu];
     hosts := [sample_host "n1" loads.1.1; sample_host "n2" loads.1.2;
               sample_host "n3" loads.2];
     clusters := [c]; scopeId := 7; trace := [] |}.

(** The user already runs as many queries as it may. *)
Definition full_world : world :=
  sample_world (sample_user 2 2) (sample_clusterUser 0 5) (1, 0, 4)
    (sample_cluster 10 "admin").

(** Nobody runs anything. *)
Definition idle_world : world :=
  sample_world (sample_user 2 0) (sample_clusterUser 0 0) (0, 0, 0)
    (sample_cluster 10 "admin").

Definition sample_scope : scope :=
  {| s_id := 8; s_host := 1%nat; s_cluster := 0%nat; s_user := 0%nat;
     s_clusterUser := 0%nat |}.

(** ** Vocabulary for host selection *)

(** The number of queries a host runs, as [getHost] reads it. *)
Definition load (w : world) (p : ptr) : Z :=
  match hosts w !! p with
  | Some h => queryCounter_runningQueries (h_queryCounter h)
  | None => 0
  end.

(** The index [getHost] looks at in its [k]-th step when it starts at
    [start] in a slice of [n] hosts: [start], then [start + 1], ... with
    wrap-around. *)
Definition scan_position (start : Z) (n k : nat) : Z :=
  (start + Z.of_nat k) mod Z.of_nat n.

Definition scanned_host (hs : list ptr) (start : Z) (k : nat) : ptr :=
  hs !!! Z.to_nat (scan_position start (length hs) k).

(** The index [getHost] starts at when the cursor of the cluster is
    [cursor] before the call. *)
Definition start_index (cursor : Z) (n : nat) : Z :=
  atomic_AddUint32 cursor 1 mod Z.of_nat n.

(** What the [k]-th scanned host has to satisfy to be the one [getHost]
    returns: it is the first idle host of the scan, or no host is idle and
    it is the first host of the scan with the least load. *)
Definition selected (w : world) (hs : list ptr) (start : Z) (k : nat) : Prop :=
  let ld := fun j : nat => load w (scanned_host hs start j) in
  (ld k = 0 /\ forall j : nat, (j < k)%nat -> ld j <> 0)
  \/ ((forall j : nat, (j < length hs)%nat -> ld j <> 0)
      /\ (forall j : nat, (j < length hs)%nat -> ld k <= ld j)
      /\ (forall j : nat, (j < k)%nat -> ld k < ld j)).

(** [n] calls of [getHost] in a row, and the hosts they return. *)
Fixpoint getHost_n (n : nat) (c : ptr) : M (list ptr) :=
  match n with
  | O => ret []
  | S n' => h <- getHost c ;; hs <- getHost_n n' c ;; ret (h :: hs)
  end.

(** The hosts [m] calls return when every host is idle: each call advances
    the cursor and returns the host the cursor then points at. *)
Fixpoint cursor_hosts (hs : list ptr) (cursor : Z) (m : nat) : list ptr :=
  match m with
  | O => []
  | S m' =>
      let cursor' := atomic_AddUint32 cursor 1 in
      (hs !!! Z.to_nat (cursor' mod Z.of_nat (length hs)))
        :: cursor_hosts hs cursor' m'
  end.

(** The idle sample store with the cursor two steps before the end of the
    [uint32] range. *)
Definition wrapping_world : world :=
  sample_world (sample_user 2 0) (sample_clusterUser 0 0) (0, 0, 0)
    (sample_cluster 4294967294 "admin").

(** A loaded sample store: [n2] and [n3] tie for the least load. *)
Definition loaded_world : world :=
  sample_world (sample_user 2 0) (sample_clusterUser 0 0) (5, 3, 3)
    (sample_cluster 9 "admin").

(** ** Vocabulary for the kill-query protocol *)

Section KillVocabulary.

Context {ext : Externals}.

(** The request [killQueries] sends to a host. *)
Definition kill_request (cl : cluster) (query : string) (h : host) : Request :=
  {| req_method := "POST"; req_url := URL_String (addr h);
     req_body := query;
     req_auth := Some (killQueryUserName cl, killQueryUserPassword cl) |}.

(** What the trace records when a host is sent the request. *)
Definition kill_events (cl : cluster) (query : string) (h : host)
    : list event :=
  [EvNewRequest "POST" (URL_String (addr h)) query;
   EvDo (kill_request cl query h)].

(** The host takes the request: it can be built, it is transported and the
    answer has status 200.  [tr] is the trace when the host's turn comes. *)
Definition node_accepts (cl : cluster) (query : string) (h : host)
    (tr : list event) : Prop :=
  http_NewRequest_error "POST" (URL_String (addr h)) = None
  /\ exists resp : Response,
       client_Do_answer
         (tr ++ [EvNewRequest "POST" (URL_String (addr h)) query])
         (kill_request cl query h) = inr resp
       /\ StatusCode resp = StatusOK.

Fixpoint all_accept (cl : cluster) (query : string) (hs : list host)
    (tr : list event) : Prop :=
  match hs with
  | [] => True
  | h :: rest =>
      node_accepts cl query h tr
      /\ all_accept cl query rest (tr ++ kill_events cl query h)
  end.

(** The three ways a host can fail, with the error reported for each and
    the events recorded on the way. *)
Inductive node_fails (cl : cluster) (query : string) (h : host)
    (tr : list event) : string -> list event -> Prop :=
| fails_to_construct (err : string) :
    http_NewRequest_error "POST" (URL_String (addr h)) = Some err ->
    node_fails cl query h tr
      ("error while creating kill query request to " +:+ URL_String (addr h)
       +:+ ": " +:+ err)
      [EvNewRequest "POST" (URL_String (addr h)) query]
| fails_to_transport (err : string) :
    http_NewRequest_error "POST" (URL_String (addr h)) = None ->
    client_Do_answer
      (tr ++ [EvNewRequest "POST" (URL_String (addr h)) query])
      (kill_request cl query h) = inl err ->
    node_fails cl query h tr
      ("error while executing clickhouse query " +:+ strconv_Quote query
       +:+ " at " +:+ strconv_Quote (URL_String (addr h)) +:+ ": " +:+ err)
      (kill_events cl query h)
| fails_with_status (resp : Response) :
    http_NewRequest_error "POST" (URL_String (addr h)) = None ->
    client_Do_answer
      (tr ++ [EvNewRequest "POST" (URL_String (addr h)) query])
      (kill_request cl query h) = inr resp ->
    StatusCode resp <> StatusOK ->
    node_fails cl query h tr
      ("unexpected status code returned from query " +:+ strconv_Quote query
       +:+ " at " +:+ strconv_Quote (URL_String (addr h)) +:+ ": "
       +:+ fmt_d (StatusCode resp) +:+ ". Response body: "
       +:+ strconv_Quote (Body resp))
      (kill_events cl query h).

End KillVocabulary.

(** The body of the request an event is about, if it is about one. *)
Definition event_body (ev : event) : option string :=
  match ev with
  | EvNewRequest _ _ body => Some body
  | EvDo req => Some (req_body req)
  | _ => None
  end.

(** The requests handed to the network, in order. *)
Definition sent_requests (tr : list event) : list Request :=
  omap (fun ev => match ev with EvDo req => Some req | _ => None end) tr.



(** The sample store seen by a cluster without administrative user. *)
Definition no_admin_world : world :=
  sample_world (sample_user 2 0) (sample_clusterUser 0 0) (0, 0, 0)
    (sample_cluster 10 EmptyString).

(** ** The remaining functions of [scope.go] *)

Section Remaining.

Context {ext : Externals}.

(** The [String] method of [scope]; the arguments of [Sprintf] are evaluated from left
    to right. *)
Definition scope_String (s : scope) : M string :=
  u <- deref users (s_user s) ;;
  uq <- runningQueries (UserCounter (s_user s)) ;;
  cu <- deref clusterUsers (s_clusterUser s) ;;
  cq <- runningQueries (ClusterUserCounter (s_clusterUser s)) ;;
  h <- deref hosts (s_host s) ;;
  hq <- runningQueries (HostCounter (s_host s)) ;;
  ret ("[ Id: " +:+ fmt_d (s_id s) +:+ "; User "
       +:+ strconv_Quote (u_name u) +:+ "(" +:+ fmt_d uq
       +:+ ") proxying as " +:+ strconv_Quote (cu_name cu) +:+ "("
       +:+ fmt_d cq +:+ ") to " +:+ strconv_Quote (Host (addr h)) +:+ "("
       +:+ fmt_d hq +:+ ") ]").

End Remaining.

(** [newCluster]: the new cluster is allocated at the end of the store; the
    cursor starts at the low 32 bits of the clock reading [now] (the value
    of [time.Now().UnixNano()]); the fields that are not listed in the
    composite literal hold their zero value. *)
Definition newCluster (h : list ptr) (cu : gmap string ptr) (now : Z)
    : M ptr :=
  fun w =>
    Done (length (clusters w))
      (set_clusters (fun l =>
         l ++ [{| nextIdx := wrap32 now; c_hosts := h; c_users := cu;
                  killQueryUserName := EmptyString;
                  killQueryUserPassword := EmptyString |}]) w).

(** The counts the store holds for a user, a cluster user and a host. *)
Definition user_count (w : world) (p : ptr) : option Z :=
  (fun u => value (u_queryCounter u)) <$> users w !! p.

Definition clusterUser_count (w : world) (p : ptr) : option Z :=
  (fun cu => value (cu_queryCounter cu)) <$> clusterUsers w !! p.

Definition host_count (w : world) (p : ptr) : option Z :=
  (fun h => value (h_queryCounter h)) <$> hosts w !! p.

(** Both limits of the sample store are reached. *)
Definition both_full_world : world :=
  sample_world (sample_user 2 2) (sample_clusterUser 3 3) (1, 0, 4)
    (sample_cluster 10 "admin").

(** An environment in which every host answers with status 200. *)
Definition healthy_ext : Externals :=
  {| strconv_Quote := fun s => double_quote +:+ s +:+ double_quote;
     URL_String := fun u => Scheme u +:+ "://" +:+ Host u +:+ Path u;
     http_NewRequest_error := fun _ _ => None;
     client_Do_answer := fun _ _ =>
       inr {| StatusCode := StatusOK; Body := "ok" |};
     float64_to_int_unrepresentable := fun _ => min_int64 |}.

(** A cluster of one host. *)
Definition single_host_world : world :=
  {| users := [sample_user 2 0]; clusterUsers := [sample_clusterUser 0 0];
     hosts := [sample_host "n1" 7];
     clusters := [{| nextIdx := 41; c_hosts := [0%nat]; c_users := ∅;
                     killQueryUserName := "admin";
                     killQueryUserPassword := "s3cr3t" |}];
     scopeId := 7; trace := [] |}.

(** A cluster without hosts. *)
Definition empty_cluster_world : world :=
  {| users := [sample_user 2 0]; clusterUsers := [sample_clusterUser 0 0];
     hosts := [];
     clusters := [{| nextIdx := 41; c_hosts := []; c_users := ∅;
                     killQueryUserName := "admin";
                     killQueryUserPassword := "s3cr3t" |}];
     scopeId := 7; trace := [] |}.

(** The count stored in the counter of a host, read off the store (0 for a
    pointer that is not in the store). *)
Definition stored_load (w : world) (p : ptr) : Z :=
  default 0 (host_count w p).

(** A loaded sample store where the scan starts at the busiest host and
    then meets two hosts that tie for the least load. *)
Definition tied_world : world :=
  sample_world (sample_user 2 0) (sample_clusterUser 0 0) (5, 3, 3)
    (sample_cluster 8 "admin").

(** * Proofs *)

(** ** The monad *)

Lemma bind_Done {A B : Type} (m : M A) (k : A -> M B) (w w1 : world) (a : A) :
  m w = Done a w1 -> bind m k w = k a w1.
Proof. intros H. unfold bind. now rewrite H. Qed.

Lemma world_eq (w1 w2 : world) :
  users w1 = users w2 -> clusterUsers w1 = clusterUsers w2 ->
  hosts w1 = hosts w2 -> clusters w1 = clusters w2 ->
  scopeId w1 = scopeId w2 -> trace w1 = trace w2 -> w1 = w2.
Proof. destruct w1, w2; simpl; intros; subst; reflexivity. Qed.

(** ** Counters *)

Lemma wrap32_lnot_0 : wrap32 (Z.lnot 0) = uint32_modulus - 1.
Proof. reflexivity. Qed.

Lemma inc_then_dec_value (v : Z) :
  is_uint32 v ->
  atomic_AddUint32 (atomic_AddUint32 v 1) (wrap32 (Z.lnot 0)) = v.
Proof.
  unfold is_uint32, atomic_AddUint32. rewrite wrap32_lnot_0.
  unfold wrap32, uint32_modulus. change (2 ^ 32) with 4294967296.
  intros Hv. Z.div_mod_to_equations. lia.
Qed.

Lemma queryCounter_inc_dec (qc : queryCounter) :
  wf_counter qc -> queryCounter_dec (queryCounter_inc qc).2 = qc.
Proof.
  destruct qc as [v]. unfold wf_counter, queryCounter_dec, queryCounter_inc.
  simpl. intros Hv. f_equal. now apply inc_then_dec_value.
Qed.

Lemma inc_user (w : world) (p : ptr) (u : user) :
  users w !! p = Some u ->
  inc (UserCounter p) w =
    Done (queryCounter_inc (u_queryCounter u)).1
      (set_trace (fun t => t ++ [EvInc (UserCounter p)])
        (set_users (fun l =>
           <[p := with_u_queryCounter (queryCounter_inc (u_queryCounter u)).2 u]> l)
          w)).
Proof.
  intros H. unfold inc, load_counter, store_counter, bind, deref, ret, emit.
  rewrite H. simpl. rewrite H. reflexivity.
Qed.

Lemma inc_clusterUser (w : world) (p : ptr) (cu : clusterUser) :
  clusterUsers w !! p = Some cu ->
  inc (ClusterUserCounter p) w =
    Done (queryCounter_inc (cu_queryCounter cu)).1
      (set_trace (fun t => t ++ [EvInc (ClusterUserCounter p)])
        (set_clusterUsers (fun l =>
           <[p := with_cu_queryCounter
                    (queryCounter_inc (cu_queryCounter cu)).2 cu]> l)
          w)).
Proof.
  intros H. unfold inc, load_counter, store_counter, bind, deref, ret, emit.
  rewrite H. simpl. rewrite H. reflexivity.
Qed.

Lemma inc_host (w : world) (p : ptr) (h : host) :
  hosts w !! p = Some h ->
  inc (HostCounter p) w =
    Done (queryCounter_inc (h_queryCounter h)).1
      (set_trace (fun t => t ++ [EvInc (HostCounter p)])
        (set_hosts (fun l =>
           <[p := with_h_queryCounter (queryCounter_inc (h_queryCounter h)).2 h]> l)
          w)).
Proof.
  intros H. unfold inc, load_counter, store_counter, bind, deref, ret, emit.
  rewrite H. simpl. rewrite H. reflexivity.
Qed.

Lemma dec_user (w : world) (p : ptr) (u : user) :
  users w !! p = Some u ->
  dec (UserCounter p) w =
    Done tt
      (set_trace (fun t => t ++ [EvDec (UserCounter p)])
        (set_users (fun l =>
           <[p := with_u_queryCounter (queryCounter_dec (u_queryCounter u)) u]> l)
          w)).
Proof.
  intros H. unfold dec, load_counter, store_counter, bind, deref, ret, emit.
  rewrite H. simpl. rewrite H. reflexivity.
Qed.

Lemma dec_clusterUser (w : world) (p : ptr) (cu : clusterUser) :
  clusterUsers w !! p = Some cu ->
  dec (ClusterUserCounter p) w =
    Done tt
      (set_trace (fun t => t ++ [EvDec (ClusterUserCounter p)])
        (set_clusterUsers (fun l =>
           <[p := with_cu_queryCounter (queryCounter_dec (cu_queryCounter cu)) cu]> l)
          w)).
Proof.
  intros H. unfold dec, load_counter, store_counter, bind, deref, ret, emit.
  rewrite H. simpl. rewrite H. reflexivity.
Qed.

Lemma dec_host (w : world) (p : ptr) (h : host) :
  hosts w !! p = Some h ->
  dec (HostCounter p) w =
    Done tt
      (set_trace (fun t => t ++ [EvDec (HostCounter p)])
        (set_hosts (fun l =>
           <[p := with_h_queryCounter (queryCounter_dec (h_queryCounter h)) h]> l)
          w)).
Proof.
  intros H. unfold dec, load_counter, store_counter, bind, deref, ret, emit.
  rewrite H. simpl. rewrite H. reflexivity.
Qed.

(** ** Admission accounting: [scope.inc] and [scope.dec] *)

Section Accounting.

Context {ext : Externals}.

Lemma scope_dec_run (s : scope) (w : world) (u : user) (cu : clusterUser)
    (h : host) :
  users w !! s_user s = Some u ->
  clusterUsers w !! s_clusterUser s = Some cu ->
  hosts w !! s_host s = Some h ->
  scope_dec s w = Done tt (after_dec s u cu h w).
Proof.
  intros Hu Hcu Hh. unfold scope_dec.
  rewrite (bind_Done _ _ _ _ _ (dec_host w _ h Hh)).
  erewrite bind_Done; [| apply dec_user; exact Hu].
  erewrite dec_clusterUser; [| exact Hcu].
  f_equal. apply world_eq; simpl; try reflexivity.
  now rewrite <- !app_assoc.
Qed.

Lemma scope_inc_run (s : scope) (w : world) (u : user) (cu : clusterUser)
    (h : host) :
  users w !! s_user s = Some u ->
  clusterUsers w !! s_clusterUser s = Some cu ->
  hosts w !! s_host s = Some h ->
  let u' := with_u_queryCounter (queryCounter_inc (u_queryCounter u)).2 u in
  let cu' :=
    with_cu_queryCounter (queryCounter_inc (cu_queryCounter cu)).2 cu in
  let h' := with_h_queryCounter (queryCounter_inc (h_queryCounter h)).2 h in
  scope_inc s w =
    match inc_error u cu with
    | Some e => Done (Some e) (after_dec s u' cu' h' (after_inc s u cu h w))
    | None => Done None (after_inc s u cu h w)
    end.
Proof.
  intros Hu Hcu Hh u' cu' h'.
  assert (Hw3 :
    (inc (UserCounter (s_user s)) ;;;
     inc (ClusterUserCounter (s_clusterUser s)) ;;;
     inc (HostCounter (s_host s))) w
    = Done (queryCounter_inc (h_queryCounter h)).1 (after_inc s u cu h w)).
  { rewrite (bind_Done _ _ _ _ _ (inc_user w _ u Hu)).
    erewrite bind_Done; [| apply inc_clusterUser; exact Hcu].
    erewrite inc_host; [| exact Hh].
    f_equal. apply world_eq; simpl; try reflexivity.
    now rewrite <- !app_assoc. }
  assert (Hu' : users (after_inc s u cu h w) !! s_user s = Some u').
  { simpl. apply list_lookup_insert_eq. eapply lookup_lt_Some; eauto. }
  assert (Hcu' :
    clusterUsers (after_inc s u cu h w) !! s_clusterUser s = Some cu').
  { simpl. apply list_lookup_insert_eq. eapply lookup_lt_Some; eauto. }
  assert (Hh' : hosts (after_inc s u cu h w) !! s_host s = Some h').
  { simpl. apply list_lookup_insert_eq. eapply lookup_lt_Some; eauto. }
  unfold scope_inc.
  rewrite (bind_Done _ _ _ _ _ (inc_user w _ u Hu)).
  erewrite bind_Done; [| apply inc_clusterUser; exact Hcu].
  erewrite bind_Done; [| apply inc_host; exact Hh].
  lazymatch goal with
  | |- bind _ _ ?w3 = _ =>
      replace w3 with (after_inc s u cu h w)
        by (apply world_eq; simpl; try reflexivity;
            now rewrite <- !app_assoc)
  end.
  erewrite bind_Done; [| unfold deref; rewrite Hu'; reflexivity].
  erewrite bind_Done; [| unfold deref; rewrite Hcu'; reflexivity].
  change (u_maxConcurrentQueries u') with (u_maxConcurrentQueries u).
  change (cu_maxConcurrentQueries cu') with (cu_maxConcurrentQueries cu).
  change (user_limit_error u') with (user_limit_error u).
  change (clusterUser_limit_error cu') with (clusterUser_limit_error cu).
  fold (inc_error u cu).
  destruct (inc_error u cu) as [e|]; [| reflexivity].
  erewrite bind_Done; [| apply scope_dec_run; eassumption].
  reflexivity.
Qed.

Lemma inc_error_Some_iff (u : user) (cu : clusterUser) :
  is_Some (inc_error u cu) <-> user_exceeded u \/ clusterUser_exceeded cu.
Proof.
  unfold inc_error, user_exceeded, clusterUser_exceeded.
  rewrite <- !Z.ltb_lt.
  destruct (0 <? u_maxConcurrentQueries u),
           (u_maxConcurrentQueries u <? (queryCounter_inc (u_queryCounter u)).1),
           (0 <? cu_maxConcurrentQueries cu),
           (cu_maxConcurrentQueries cu
              <? (queryCounter_inc (cu_queryCounter cu)).1);
    simpl; split; intros H;
    first [ now eauto
          | now (exfalso; destruct H as [? H]; discriminate H)
          | intuition congruence ].
Qed.

Lemma inc_error_cases (u : user) (cu : clusterUser) (e : string) :
  inc_error u cu = Some e ->
  (e = user_limit_error u /\ user_exceeded u)
  \/ (e = clusterUser_limit_error cu /\ clusterUser_exceeded cu).
Proof.
  unfold inc_error, user_exceeded, clusterUser_exceeded.
  rewrite <- !Z.ltb_lt.
  destruct (0 <? u_maxConcurrentQueries u),
           (u_maxConcurrentQueries u <? (queryCounter_inc (u_queryCounter u)).1),
           (0 <? cu_maxConcurrentQueries cu),
           (cu_maxConcurrentQueries cu
              <? (queryCounter_inc (cu_queryCounter cu)).1);
    cbn [andb]; intros H; inversion H; subst; auto.
Qed.

(** The accounted records are restored by the decrements that follow the
    increments. *)
Lemma after_dec_after_inc (s : scope) (w : world) (u : user)
    (cu : clusterUser) (h : host) :
  wf_world w ->
  users w !! s_user s = Some u ->
  clusterUsers w !! s_clusterUser s = Some cu ->
  hosts w !! s_host s = Some h ->
  let w' :=
    after_dec s
      (with_u_queryCounter (queryCounter_inc (u_queryCounter u)).2 u)
      (with_cu_queryCounter (queryCounter_inc (cu_queryCounter cu)).2 cu)
      (with_h_queryCounter (queryCounter_inc (h_queryCounter h)).2 h)
      (after_inc s u cu h w) in
  users w' = users w /\ clusterUsers w' = clusterUsers w
  /\ hosts w' = hosts w /\ clusters w' = clusters w
  /\ scopeId w' = scopeId w.
Proof.
  intros [Wu Wcu Wh] Hu Hcu Hh. cbv zeta. unfold after_dec, after_inc.
  cbn [users clusterUsers hosts clusters scopeId].
  rewrite !list_insert_insert_eq.
  assert (Iu : wf_counter (u_queryCounter u)).
  { rewrite Forall_forall in Wu. apply Wu. eapply list_elem_of_lookup_2; eauto. }
  assert (Icu : wf_counter (cu_queryCounter cu)).
  { rewrite Forall_forall in Wcu. apply Wcu. eapply list_elem_of_lookup_2; eauto. }
  assert (Ih : wf_counter (h_queryCounter h)).
  { rewrite Forall_forall in Wh. apply Wh. eapply list_elem_of_lookup_2; eauto. }
  repeat split.
  - apply list_insert_id. etransitivity; [exact Hu |]. f_equal. symmetry.
    unfold with_u_queryCounter; cbn [u_queryCounter u_toUser u_toCluster u_name
      u_password u_maxExecutionTime u_maxConcurrentQueries].
    rewrite queryCounter_inc_dec by assumption. now destruct u.
  - apply list_insert_id. etransitivity; [exact Hcu |]. f_equal. symmetry.
    unfold with_cu_queryCounter; cbn [cu_queryCounter cu_name cu_password
      cu_maxExecutionTime cu_maxConcurrentQueries].
    rewrite queryCounter_inc_dec by assumption. now destruct cu.
  - apply list_insert_id. etransitivity; [exact Hh |]. f_equal. symmetry.
    unfold with_h_queryCounter; cbn [h_queryCounter addr].
    rewrite queryCounter_inc_dec by assumption. now destruct h.
Qed.
Lemma inc_nil (r : counter_ref) (w : world) :
  match r with
  | UserCounter p => users w !! p = None
  | ClusterUserCounter p => clusterUsers w !! p = None
  | HostCounter p => hosts w !! p = None
  end ->
  inc r w = Panic.
Proof.
  destruct r as [p|p|p]; intros H;
    unfold inc, load_counter, bind, deref; now rewrite H.
Qed.

Lemma scope_inc_Done_lookups (s : scope) (w w' : world) (r : option string) :
  scope_inc s w = Done r w' ->
  exists u cu h,
    users w !! s_user s = Some u
    /\ clusterUsers w !! s_clusterUser s = Some cu
    /\ hosts w !! s_host s = Some h.
Proof.
  intros H.
  destruct (users w !! s_user s) as [u|] eqn:Hu.
  2: { exfalso. revert H. unfold scope_inc, bind at 1.
       erewrite inc_nil; [discriminate | exact Hu]. }
  destruct (clusterUsers w !! s_clusterUser s) as [cu|] eqn:Hcu.
  2: { exfalso. revert H. unfold scope_inc.
       rewrite (bind_Done _ _ _ _ _ (inc_user w _ u Hu)).
       unfold bind at 1.
       erewrite inc_nil; [discriminate | exact Hcu]. }
  destruct (hosts w !! s_host s) as [h|] eqn:Hh.
  2: { exfalso. revert H. unfold scope_inc.
       rewrite (bind_Done _ _ _ _ _ (inc_user w _ u Hu)).
       erewrite bind_Done; [| apply inc_clusterUser; exact Hcu].
       unfold bind at 1.
       erewrite inc_nil; [discriminate | exact Hh]. }
  eauto 6.
Qed.

(** C1.  [scope.inc] returns an error exactly when the limit of the user is
    positive and below the count of the user after its increment (the
    stored count plus one, modulo 2^32), or the limit of the cluster user
    is positive and below the count of the cluster user after its
    increment; in particular it returns no error when both limits are
    zero. *)
Theorem scope_inc_fails_iff_limit_exceeded (s : scope) (w : world)
    (u : user) (cu : clusterUser) (h : host) :
  users w !! s_user s = Some u ->
  clusterUsers w !! s_clusterUser s = Some cu ->
  hosts w !! s_host s = Some h ->
  exists (r : option string) (w' : world),
    scope_inc s w = Done r w'
    /\ (is_Some r <->
        (0 < u_maxConcurrentQueries u
         /\ u_maxConcurrentQueries u
            < (value (u_queryCounter u) + 1) mod 2 ^ 32)
        \/ (0 < cu_maxConcurrentQueries cu
            /\ cu_maxConcurrentQueries cu
               < (value (cu_queryCounter cu) + 1) mod 2 ^ 32))
    /\ (u_maxConcurrentQueries u = 0 -> cu_maxConcurrentQueries cu = 0 ->
        r = None).
Proof.
  intros Hu Hcu Hh.
  pose proof (scope_inc_run s w u cu h Hu Hcu Hh) as Hrun. cbv zeta in Hrun.
  pose proof (inc_error_Some_iff u cu) as Hiff.
  assert (Hpost : forall qc : queryCounter,
            (queryCounter_inc qc).1 = (value qc + 1) mod 2 ^ 32)
    by reflexivity.
  unfold user_exceeded, clusterUser_exceeded in Hiff.
  rewrite !Hpost in Hiff.
  destruct (inc_error u cu) as [e|] eqn:He.
  - eexists _, _. split; [exact Hrun |]. split; [exact Hiff |].
    intros Zu Zcu. exfalso.
    destruct Hiff as [Hex _]. destruct Hex as [[Hpos _]|[Hpos _]]; [eauto | |];
      lia.
  - eexists _, _. split; [exact Hrun |]. split; [exact Hiff | reflexivity].
Qed.

(** C2.  When [scope.inc] returns an error, the store holds the users, the
    cluster users and the hosts it held before the call: the three counters
    were incremented and then decremented (host, user, cluster user).  The
    error is the message of an exceeded limit: the words "limits for user"
    or "limits for cluster user", the quoted name of the user, or of the
    cluster user, whose positive limit is below its count after the
    increment, and that limit in decimal. *)
Theorem scope_inc_failure_restores_counters (s : scope) (w w' : world)
    (e : string) :
  wf_world w ->
  scope_inc s w = Done (Some e) w' ->
  users w' = users w /\ clusterUsers w' = clusterUsers w
  /\ hosts w' = hosts w
  /\ trace w' = trace w ++ [EvInc (UserCounter (s_user s));
                            EvInc (ClusterUserCounter (s_clusterUser s));
                            EvInc (HostCounter (s_host s));
                            EvDec (HostCounter (s_host s));
                            EvDec (UserCounter (s_user s));
                            EvDec (ClusterUserCounter (s_clusterUser s))]
  /\ exists u cu,
       users w !! s_user s = Some u
       /\ clusterUsers w !! s_clusterUser s = Some cu
       /\ ((e = "limits for user " +:+ strconv_Quote (u_name u)
                +:+ " are exceeded: maxConcurrentQueries limit: "
                +:+ fmt_d (u_maxConcurrentQueries u)
            /\ 0 < u_maxConcurrentQueries u
            /\ u_maxConcurrentQueries u
               < (value (u_queryCounter u) + 1) mod 2 ^ 32)
           \/ (e = "limits for cluster user " +:+ strconv_Quote (cu_name cu)
                   +:+ " are exceeded: maxConcurrentQueries limit: "
                   +:+ fmt_d (cu_maxConcurrentQueries cu)
               /\ 0 < cu_maxConcurrentQueries cu
               /\ cu_maxConcurrentQueries cu
                  < (value (cu_queryCounter cu) + 1) mod 2 ^ 32)).
Proof.
  intros Hwf H.
  destruct (scope_inc_Done_lookups _ _ _ _ H) as (u & cu & h & Hu & Hcu & Hh).
  pose proof (scope_inc_run s w u cu h Hu Hcu Hh) as Hrun. cbv zeta in Hrun.
  rewrite Hrun in H.
  destruct (inc_error u cu) as [e'|] eqn:He; [| discriminate].
  injection H as -> <-.
  destruct (after_dec_after_inc s w u cu h Hwf Hu Hcu Hh)
    as (E1 & E2 & E3 & _).
  repeat split; try assumption.
  - simpl. now rewrite <- app_assoc.
  - exists u, cu. split; [assumption |]. split; [assumption |].
    assert (Hpost : forall qc : queryCounter,
              (queryCounter_inc qc).1 = (value qc + 1) mod 2 ^ 32)
      by reflexivity.
    destruct (inc_error_cases u cu e He) as [[-> [Hp Hx]] | [-> [Hp Hx]]];
      rewrite Hpost in Hx; [left | right];
      (split; [reflexivity | split; assumption]).
Qed.

(** C3.  [scope.dec] right after a [scope.inc] that returned no error leaves
    the users, the cluster users and the hosts, hence the three counters, as
    they were before the [scope.inc]. *)
Theorem scope_inc_dec_round_trip (s : scope) (w w1 : world) :
  wf_world w ->
  scope_inc s w = Done None w1 ->
  exists w2 : world,
    scope_dec s w1 = Done tt w2
    /\ users w2 = users w /\ clusterUsers w2 = clusterUsers w
    /\ hosts w2 = hosts w.
Proof.
  intros Hwf H.
  destruct (scope_inc_Done_lookups _ _ _ _ H) as (u & cu & h & Hu & Hcu & Hh).
  pose proof (scope_inc_run s w u cu h Hu Hcu Hh) as Hrun. cbv zeta in Hrun.
  rewrite Hrun in H.
  destruct (inc_error u cu) as [e'|] eqn:He; [discriminate |].
  injection H as <-.
  destruct (after_dec_after_inc s w u cu h Hwf Hu Hcu Hh)
    as (E1 & E2 & E3 & _).
  eexists. split.
  - apply scope_dec_run; simpl; apply list_lookup_insert_eq;
      eapply lookup_lt_Some; eassumption.
  - auto.
Qed.

(** C9, as the code has it.  [scope.inc] increments the counter of the user
    first, then the counter of the cluster user, then the counter of the
    host; whatever else it does comes after these three. *)
Theorem scope_inc_increment_order (s : scope) (w : world)
    (u : user) (cu : clusterUser) (h : host) :
  users w !! s_user s = Some u ->
  clusterUsers w !! s_clusterUser s = Some cu ->
  hosts w !! s_host s = Some h ->
  exists (r : option string) (w' : world) (rest : list event),
    scope_inc s w = Done r w'
    /\ new_events w w' =
         EvInc (UserCounter (s_user s))
         :: EvInc (ClusterUserCounter (s_clusterUser s))
         :: EvInc (HostCounter (s_host s)) :: rest.
Proof.
  intros Hu Hcu Hh.
  pose proof (scope_inc_run s w u cu h Hu Hcu Hh) as Hrun. cbv zeta in Hrun.
  destruct (inc_error u cu) as [e|].
  - eexists _, _, _. split; [exact Hrun |].
    unfold new_events. simpl. rewrite <- app_assoc.
    rewrite drop_app_length. reflexivity.
  - eexists _, _, []. split; [exact Hrun |].
    unfold new_events. simpl. now rewrite drop_app_length.
Qed.

End Accounting.

Lemma full_world_wf : wf_world full_world.
Proof.
  split; repeat constructor; unfold wf_counter, is_uint32; simpl;
    unfold uint32_modulus; lia.
Qed.

Lemma idle_world_wf : wf_world idle_world.
Proof.
  split; repeat constructor; unfold wf_counter, is_uint32; simpl;
    unfold uint32_modulus; lia.
Qed.

(** *** The accounting theorems on the sample stores *)

Lemma scope_inc_fails_iff_limit_exceeded_witness :
  users full_world !! s_user sample_scope = Some (sample_user 2 2)
  /\ clusterUsers full_world !! s_clusterUser sample_scope
     = Some (sample_clusterUser 0 5)
  /\ hosts full_world !! s_host sample_scope = Some (sample_host "n2" 0)
  /\ (exists (r : option string) (w' : world),
        @scope_inc sample_ext sample_scope full_world = Done r w'
        /\ (is_Some r <->
            (0 < 2 /\ 2 < (2 + 1) mod 2 ^ 32)
            \/ (0 < 0 /\ 0 < (5 + 1) mod 2 ^ 32))
        /\ (2 = 0 -> 0 = 0 -> r = None))
  /\ (exists (e : string) (w' : world),
        @scope_inc sample_ext sample_scope full_world = Done (Some e) w'
        /\ user_count w' 0%nat = Some 2)
  /\ (exists w' : world,
        @scope_inc sample_ext sample_scope idle_world = Done None w'
        /\ user_count w' 0%nat = Some 1).
Proof.
  repeat (split; [reflexivity |]).
  pose proof (@scope_inc_fails_iff_limit_exceeded sample_ext sample_scope
                full_world (sample_user 2 2) (sample_clusterUser 0 5)
                (sample_host "n2" 0) eq_refl eq_refl eq_refl) as Hfull.
  pose proof (@scope_inc_fails_iff_limit_exceeded sample_ext sample_scope
                idle_world (sample_user 2 0) (sample_clusterUser 0 0)
                (sample_host "n2" 0) eq_refl eq_refl eq_refl) as Hidle.
  split; [exact Hfull |]. split.
  - destruct Hfull as (r & w' & Hrun & Hiff & _).
    assert (Hsome : is_Some r).
    { apply Hiff. left. split; reflexivity. }
    destruct r as [e|]; [| exfalso; exact (is_Some_None Hsome)].
    exists e, w'. split; [exact Hrun |].
    eassert (Hc : @scope_inc sample_ext sample_scope full_world = Done _ _)
      by (vm_compute; reflexivity).
    rewrite Hc in Hrun. injection Hrun as _ <-. reflexivity.
  - destruct Hidle as (r & w' & Hrun & Hiff & _).
    assert (Hnone : r = None).
    { destruct r as [e|]; [| reflexivity]. exfalso.
      destruct (proj1 Hiff ltac:(eexists; reflexivity))
        as [[_ Hlt]|[Hlt _]]; [vm_compute in Hlt | vm_compute in Hlt];
        discriminate Hlt. }
    subst r. exists w'. split; [exact Hrun |].
    eassert (Hc : @scope_inc sample_ext sample_scope idle_world = Done _ _)
      by (vm_compute; reflexivity).
    rewrite Hc in Hrun. injection Hrun as <-. reflexivity.
Defined.

Lemma scope_inc_failure_restores_counters_witness :
  wf_world full_world
  /\ exists w' : world,
       @scope_inc sample_ext sample_scope full_world
       = Done (Some ("limits for user " +:+ double_quote +:+ "web"
                     +:+ double_quote
                     +:+ " are exceeded: maxConcurrentQueries limit: 2")) w'
       /\ users w' = users full_world
       /\ clusterUsers w' = clusterUsers full_world
       /\ hosts w' = hosts full_world
       /\ user_count w' 0%nat = Some 2
       /\ clusterUser_count w' 0%nat = Some 5
       /\ host_count w' 1%nat = Some 0.
Proof.
  split; [exact full_world_wf |].
  eexists. split; [vm_compute; reflexivity |].
  pose proof (@scope_inc_failure_restores_counters sample_ext sample_scope
                full_world _ _ full_world_wf
                ltac:(vm_compute; reflexivity)) as (E1 & E2 & E3 & _).
  split; [exact E1 |]. split; [exact E2 |]. split; [exact E3 |].
  unfold user_count, clusterUser_count, host_count.
  rewrite E1, E2, E3. repeat split; reflexivity.
Defined.

Lemma scope_inc_dec_round_trip_witness :
  wf_world idle_world
  /\ exists w1 w2 : world,
       @scope_inc sample_ext sample_scope idle_world = Done None w1
       /\ scope_dec sample_scope w1 = Done tt w2
       /\ users w2 = users idle_world
       /\ clusterUsers w2 = clusterUsers idle_world
       /\ hosts w2 = hosts idle_world.
Proof.
  split; [exact idle_world_wf |].
  eexists _.
  destruct (@scope_inc_dec_round_trip sample_ext sample_scope idle_world _
              idle_world_wf ltac:(vm_compute; reflexivity))
    as (w2 & Hdec & E).
  exists w2. split; [vm_compute; reflexivity |]. split; [exact Hdec | exact E].
Defined.

Lemma scope_inc_increment_order_witness :
  users idle_world !! s_user sample_scope = Some (sample_user 2 0)
  /\ clusterUsers idle_world !! s_clusterUser sample_scope
     = Some (sample_clusterUser 0 0)
  /\ hosts idle_world !! s_host sample_scope = Some (sample_host "n2" 0)
  /\ exists (r : option string) (w' : world) (rest : list event),
       @scope_inc sample_ext sample_scope idle_world = Done r w'
       /\ new_events idle_world w' =
            EvInc (UserCounter 0%nat) :: EvInc (ClusterUserCounter 0%nat)
            :: EvInc (HostCounter 1%nat) :: rest.
Proof.
  repeat (split; [reflexivity |]).
  apply (@scope_inc_increment_order sample_ext sample_scope idle_world
           (sample_user 2 0) (sample_clusterUser 0 0) (sample_host "n2" 0));
    reflexivity.
Defined.

(** C9, as stated, fails: on the idle sample store the increment of the host
    is the last of the three, so it does not come before the one of the
    user. *)
Lemma scope_inc_host_not_incremented_first :
  exists (r : option string) (w' : world),
    @scope_inc sample_ext sample_scope idle_world = Done r w'
    /\ ~ host_incremented_first sample_scope (new_events idle_world w').
Proof.
  eexists _, _. split; [vm_compute; reflexivity |].
  intros [(i & j & Hi & Hj & Hlt) _].
  unfold new_events in Hi, Hj. simpl in Hi, Hj.
  destruct i as [|[|[|i]]]; simpl in Hi; try discriminate Hi.
  destruct j as [|[|[|j]]]; simpl in Hj; try discriminate Hj.
  lia.
Qed.

(** ** Host selection: [getHost] *)

Lemma scan_position_range (start : Z) (n k : nat) :
  (0 < n)%nat -> 0 <= scan_position start n k < Z.of_nat n.
Proof. intros Hn. unfold scan_position. apply Z.mod_pos_bound. lia. Qed.

Lemma scan_position_0 (start : Z) (n : nat) :
  0 <= start < Z.of_nat n -> scan_position start n 0 = start.
Proof.
  intros H. unfold scan_position. rewrite Z.add_0_r. now apply Z.mod_small.
Qed.

Lemma scan_position_full (start : Z) (n : nat) :
  0 <= start < Z.of_nat n -> scan_position start n n = start.
Proof.
  intros H. unfold scan_position.
  replace (start + Z.of_nat n) with (start + 1 * Z.of_nat n) by lia.
  rewrite Z.mod_add by lia. now apply Z.mod_small.
Qed.

Lemma scan_position_ne (start : Z) (n k : nat) :
  0 <= start < Z.of_nat n -> (0 < k < n)%nat ->
  scan_position start n k <> start.
Proof.
  intros Hs Hk E. unfold scan_position in E.
  assert (Hq : start + Z.of_nat k
               = Z.of_nat n * ((start + Z.of_nat k) / Z.of_nat n) + start).
  { rewrite <- E at 3. apply Z.div_mod. lia. }
  assert (Hk' : Z.of_nat k
                = Z.of_nat n * ((start + Z.of_nat k) / Z.of_nat n)) by lia.
  set (q := (start + Z.of_nat k) / Z.of_nat n) in *.
  assert (q <= 0 \/ 1 <= q) as [Hq0|Hq1] by lia; nia.
Qed.

Lemma scan_position_succ (start : Z) (n k : nat) :
  (0 < n)%nat -> Z.of_nat n < uint32_modulus ->
  wrap32 (scan_position start n k + 1) mod Z.of_nat n
  = scan_position start n (S k).
Proof.
  intros Hn Hl.
  pose proof (scan_position_range start n k Hn) as Hr.
  unfold wrap32. rewrite (Z.mod_small (_ + 1)) by lia.
  unfold scan_position. rewrite Z.add_mod_idemp_l by lia.
  f_equal. lia.
Qed.

Lemma scan_position_onto (start : Z) (n i : nat) :
  (i < n)%nat ->
  exists k : nat, (k < n)%nat /\ scan_position start n k = Z.of_nat i.
Proof.
  intros Hi.
  exists (Z.to_nat ((Z.of_nat i - start) mod Z.of_nat n)).
  pose proof (Z.mod_pos_bound (Z.of_nat i - start) (Z.of_nat n)) as Hb.
  split; [lia |].
  unfold scan_position. rewrite Z2Nat.id by lia.
  rewrite Z.add_mod_idemp_r by lia.
  replace (start + (Z.of_nat i - start)) with (Z.of_nat i) by lia.
  apply Z.mod_small. lia.
Qed.

Lemma wrap32_small (z : Z) : is_uint32 z -> wrap32 z = z.
Proof. intros H. unfold wrap32. now apply Z.mod_small. Qed.

Lemma index_lookup_total (hs : list ptr) (i : Z) :
  0 <= i < Z.of_nat (length hs) ->
  index hs i = ret (hs !!! Z.to_nat i).
Proof.
  intros Hi. unfold index.
  rewrite (list_lookup_lookup_total_lt hs (Z.to_nat i)) by lia.
  reflexivity.
Qed.

Lemma runningQueries_host (w : world) (p : ptr) :
  is_Some (hosts w !! p) ->
  runningQueries (HostCounter p) w = Done (load w p) w.
Proof.
  intros [h Hh]. unfold runningQueries, load_counter, load, bind, deref, ret.
  now rewrite Hh.
Qed.

Lemma go_mod_nonzero (a b : Z) : b <> 0 -> go_mod a b = ret (a mod b).
Proof.
  intros Hb. unfold go_mod. destruct (b =? 0) eqn:E; [| reflexivity].
  apply Z.eqb_eq in E. contradiction.
Qed.

Lemma bind_ret {A B : Type} (a : A) (k : A -> M B) (w : world) :
  bind (ret a) k w = k a w.
Proof. reflexivity. Qed.

Section GetHostLoop.

Variables (w : world) (c : ptr) (cl : cluster) (start : Z).

Hypothesis Hcluster : clusters w !! c = Some cl.
Hypothesis Hnonempty : (0 < length (c_hosts cl))%nat.
Hypothesis Hfits : Z.of_nat (length (c_hosts cl)) < uint32_modulus.
Hypothesis Hvalid : forall p : ptr, p ∈ c_hosts cl -> is_Some (hosts w !! p).
Hypothesis Hstart : 0 <= start < Z.of_nat (length (c_hosts cl)).

Lemma scanned_host_valid (k : nat) :
  is_Some (hosts w !! scanned_host (c_hosts cl) start k).
Proof.
  apply Hvalid. unfold scanned_host. apply list_elem_of_lookup_total_2.
  pose proof (scan_position_range start (length (c_hosts cl)) k Hnonempty).
  lia.
Qed.

(** One turn of the loop at the [k]-th step of the scan. *)
Lemma getHost_loop_step (fuel k : nat) (idle : ptr) (idleN : Z) :
  (0 < k < length (c_hosts cl))%nat ->
  let hs := c_hosts cl in
  let l := Z.of_nat (length hs) in
  let h := scanned_host hs start k in
  getHost_loop (S fuel) c l start (scan_position start (length hs) k)
    idle idleN w
  = if load w h =? 0 then Done h w
    else if load w h <? idleN
         then getHost_loop fuel c l start
                (scan_position start (length hs) (S k)) h (load w h) w
         else getHost_loop fuel c l start
                (scan_position start (length hs) (S k)) idle idleN w.
Proof.
  intros Hk hs l h. cbn [getHost_loop].
  pose proof (scan_position_ne start (length hs) k Hstart Hk) as Hne.
  apply Z.eqb_neq in Hne. fold hs. rewrite Hne.
  erewrite bind_Done; [| unfold deref; rewrite Hcluster; reflexivity].
  rewrite index_lookup_total
    by (apply scan_position_range; exact Hnonempty).
  subst h. unfold scanned_host. fold hs.
  set (h := hs !!! Z.to_nat (scan_position start (length hs) k)).
  rewrite bind_ret.
  erewrite bind_Done;
    [| apply runningQueries_host; apply (scanned_host_valid k)].
  destruct (load w h =? 0); [reflexivity |].
  assert (Hgo : go_mod (wrap32 (scan_position start (length hs) k + 1)) l
                = ret (scan_position start (length hs) (S k))).
  { rewrite go_mod_nonzero by (subst l hs; lia).
    subst l hs. now rewrite scan_position_succ. }
  destruct (load w h <? idleN); rewrite Hgo; reflexivity.
Qed.

(** The loop, entered at step [k] with the best host so far found at step
    [kb], ends with the host [selected] describes. *)
Lemma getHost_loop_selected (fuel : nat) :
  forall k kb : nat,
    let hs := c_hosts cl in
    let ld := fun j : nat => load w (scanned_host hs start j) in
    (1 <= k <= length hs)%nat ->
    (length hs - k <= fuel)%nat ->
    (kb < k)%nat ->
    (forall j : nat, (j < k)%nat -> ld j <> 0) ->
    (forall j : nat, (j < k)%nat -> ld kb <= ld j) ->
    (forall j : nat, (j < kb)%nat -> ld kb < ld j) ->
    exists k' : nat,
      (k' < length hs)%nat
      /\ getHost_loop fuel c (Z.of_nat (length hs)) start
           (scan_position start (length hs) k)
           (scanned_host hs start kb) (ld kb) w
         = Done (scanned_host hs start k') w
      /\ selected w hs start k'.
Proof.
  induction fuel as [|fuel IH]; intros k kb hs ld Hk Hfuel Hkb Hnz Hmin Hfirst.
  - assert (k = length hs) as -> by lia.
    exists kb. split; [lia |]. split.
    + cbn [getHost_loop]. rewrite scan_position_full by exact Hstart.
      now rewrite Z.eqb_refl.
    + right. auto.
  - destruct (decide (k = length hs)) as [->|Hlt].
    + exists kb. split; [lia |]. split.
      * cbn [getHost_loop]. rewrite scan_position_full by exact Hstart.
        now rewrite Z.eqb_refl.
      * right. auto.
    + subst hs. rewrite getHost_loop_step by lia. fold (ld k).
      destruct (ld k =? 0) eqn:Ezero.
      { apply Z.eqb_eq in Ezero. exists k. split; [lia |].
        split; [reflexivity |]. left. auto. }
      apply Z.eqb_neq in Ezero.
      destruct (ld k <? ld kb) eqn:Eless.
      * apply Z.ltb_lt in Eless.
        apply (IH (S k) k); try lia.
        -- intros j Hj. destruct (decide (j = k)) as [->|Hjk]; [easy |].
           apply Hnz. lia.
        -- intros j Hj. destruct (decide (j = k)) as [->|Hjk]; [lia |].
           assert (Hj' : (j < k)%nat) by lia.
           pose proof (Hmin j Hj') as Hm. unfold ld in *. lia.
        -- intros j Hj. pose proof (Hmin j Hj) as Hm. unfold ld in *. lia.
      * apply Z.ltb_ge in Eless.
        apply (IH (S k) kb); try lia.
        -- intros j Hj. destruct (decide (j = k)) as [->|Hjk]; [easy |].
           apply Hnz. lia.
        -- intros j Hj. destruct (decide (j = k)) as [->|Hjk]; [easy |].
           apply Hmin. lia.
        -- exact Hfirst.
Qed.

End GetHostLoop.

Lemma scanned_host_onto (hs : list ptr) (start : Z) (p : ptr) :
  p ∈ hs ->
  exists k : nat, (k < length hs)%nat /\ scanned_host hs start k = p.
Proof.
  intros Hp. apply list_elem_of_lookup in Hp as [i Hi].
  pose proof (lookup_lt_Some _ _ _ Hi) as Hlt.
  destruct (scan_position_onto start (length hs) i Hlt) as (k & Hk & Ek).
  exists k. split; [exact Hk |].
  unfold scanned_host. rewrite Ek, Nat2Z.id.
  now apply list_lookup_total_correct.
Qed.

Lemma scanned_host_elem (hs : list ptr) (start : Z) (k : nat) :
  (0 < length hs)%nat -> scanned_host hs start k ∈ hs.
Proof.
  intros Hn. unfold scanned_host. apply list_elem_of_lookup_total_2.
  pose proof (scan_position_range start (length hs) k Hn). lia.
Qed.

(** [getHost] advances the cursor and returns the host [selected]
    describes; it terminates within the fuel it is given. *)
Lemma getHost_selected (w : world) (c : ptr) (cl : cluster) :
  clusters w !! c = Some cl ->
  (0 < length (c_hosts cl))%nat ->
  Z.of_nat (length (c_hosts cl)) < uint32_modulus ->
  Forall (fun p => is_Some (hosts w !! p)) (c_hosts cl) ->
  let start := start_index (nextIdx cl) (length (c_hosts cl)) in
  exists k : nat,
    (k < length (c_hosts cl))%nat
    /\ getHost c w
       = Done (scanned_host (c_hosts cl) start k)
           (set_clusters (fun l =>
              <[c := with_nextIdx (atomic_AddUint32 (nextIdx cl) 1) cl]> l) w)
    /\ selected w (c_hosts cl) start k.
Proof.
  intros Hc Hn Hfits Hvalid start.
  set (v := atomic_AddUint32 (nextIdx cl) 1).
  set (cl' := with_nextIdx v cl).
  set (w1 := set_clusters (fun l => <[c := cl']> l) w).
  set (hs := c_hosts cl) in *.
  assert (Hc1 : clusters w1 !! c = Some cl').
  { simpl. apply list_lookup_insert_eq. eapply lookup_lt_Some; eauto. }
  assert (Hvalid1 : forall p : ptr, p ∈ c_hosts cl' -> is_Some (hosts w1 !! p)).
  { rewrite Forall_forall in Hvalid. exact Hvalid. }
  assert (Hstart : 0 <= start < Z.of_nat (length hs)).
  { unfold start, start_index. apply Z.mod_pos_bound. lia. }
  assert (Hl : wrap32 (Z.of_nat (length hs)) = Z.of_nat (length hs)).
  { apply wrap32_small. unfold is_uint32. lia. }
  assert (Hh0 : hs !!! Z.to_nat start = scanned_host hs start 0).
  { unfold scanned_host. now rewrite scan_position_0. }
  unfold getHost.
  erewrite bind_Done;
    [| unfold add_nextIdx, bind, deref; rewrite Hc; reflexivity].
  fold v. fold cl'. fold w1.
  erewrite bind_Done; [| unfold deref; rewrite Hc1; reflexivity].
  change (c_hosts cl') with hs. rewrite Hl.
  rewrite go_mod_nonzero by lia. rewrite bind_ret.
  change (v mod Z.of_nat (length hs)) with start.
  rewrite index_lookup_total by exact Hstart. rewrite bind_ret.
  rewrite Hh0.
  erewrite bind_Done;
    [| apply runningQueries_host; apply Hvalid1;
       apply scanned_host_elem; exact Hn].
  change (load w1 (scanned_host hs start 0))
    with (load w (scanned_host hs start 0)).
  destruct (load w (scanned_host hs start 0) =? 0) eqn:E0.
  - apply Z.eqb_eq in E0. exists 0%nat. split; [exact Hn |].
    split; [reflexivity |]. left. split; [exact E0 |]. intros j Hj. lia.
  - apply Z.eqb_neq in E0.
    rewrite go_mod_nonzero by lia. rewrite bind_ret.
    assert (Hnext : wrap32 (start + 1) mod Z.of_nat (length hs)
                    = scan_position start (length hs) 1).
    { rewrite <- (scan_position_succ start (length hs) 0) by assumption.
      now rewrite scan_position_0. }
    rewrite Hnext.
    pose proof (getHost_loop_selected w1 c cl' start Hc1 Hn Hfits Hvalid1
                  Hstart (length hs) 1 0) as Hloop.
    cbv zeta in Hloop. change (c_hosts cl') with hs in Hloop.
    destruct Hloop as (k' & Hk' & Hrun & Hsel).
    + lia.
    + lia.
    + lia.
    + intros j Hj. assert (j = 0%nat) as -> by lia. exact E0.
    + intros j Hj. assert (j = 0%nat) as -> by lia. reflexivity.
    + intros j Hj. lia.
    + exists k'. split; [exact Hk' |]. split; [exact Hrun | exact Hsel].
Qed.

(** What [getHost] reads through [runningQueries] is the count stored in
    the counter of the host. *)
Lemma load_stored_load (w : world) (p : ptr) : load w p = stored_load w p.
Proof.
  unfold load, stored_load, host_count.
  destruct (hosts w !! p) as [h|]; reflexivity.
Qed.

Lemma host_count_load (w : world) (p : ptr) :
  is_Some (hosts w !! p) -> host_count w p = Some (load w p).
Proof.
  intros [h Hh]. unfold host_count, load. rewrite Hh. reflexivity.
Qed.

(** C4.  On a cluster with at least one host (and fewer than 2^32), whatever
    the cursor, when the counter of some host of the cluster holds 0
    [getHost] returns a host of the cluster whose counter holds 0. *)
Theorem getHost_returns_idle_host (w : world) (c : ptr) (cl : cluster) :
  clusters w !! c = Some cl ->
  (0 < length (c_hosts cl))%nat ->
  Z.of_nat (length (c_hosts cl)) < uint32_modulus ->
  Forall (fun p => is_Some (hosts w !! p)) (c_hosts cl) ->
  Exists (fun p => host_count w p = Some 0) (c_hosts cl) ->
  exists (p : ptr) (w' : world),
    getHost c w = Done p w'
    /\ p ∈ c_hosts cl
    /\ hosts w' = hosts w
    /\ host_count w' p = Some 0.
Proof.
  intros Hc Hn Hfits Hvalid Hidle.
  destruct (getHost_selected w c cl Hc Hn Hfits Hvalid)
    as (k & Hk & Hrun & Hsel).
  eexists _, _. split; [exact Hrun |].
  assert (Helem : scanned_host (c_hosts cl)
                    (start_index (nextIdx cl) (length (c_hosts cl))) k
                  ∈ c_hosts cl)
    by (apply scanned_host_elem; exact Hn).
  split; [exact Helem |].
  split; [reflexivity |].
  assert (Hzero : load w (scanned_host (c_hosts cl)
                            (start_index (nextIdx cl) (length (c_hosts cl)))
                            k) = 0).
  { destruct Hsel as [[Hzero _] | [Hnone _]]; [exact Hzero |].
    exfalso. apply Exists_exists in Hidle as (p & Hp & Hp0).
    destruct (scanned_host_onto (c_hosts cl)
                (start_index (nextIdx cl) (length (c_hosts cl))) p Hp)
      as (j & Hj & <-).
    apply (Hnone j Hj). rewrite load_stored_load. unfold stored_load.
    now rewrite Hp0. }
  change (host_count w (scanned_host (c_hosts cl)
            (start_index (nextIdx cl) (length (c_hosts cl))) k) = Some 0).
  rewrite host_count_load, Hzero; [reflexivity |].
  rewrite Forall_forall in Hvalid. now apply Hvalid.
Qed.

(** C5.  On a cluster with at least one host where no counter of a host
    holds 0, [getHost] returns a host whose stored count is the least of
    the cluster; among the hosts with that count it is the one the scan
    reaches first (the scan starts at the cursor and goes up, wrapping
    around), and it is the starting host when no host has a count below
    the starting one's. *)
Theorem getHost_returns_first_least_loaded (w : world) (c : ptr)
    (cl : cluster) :
  clusters w !! c = Some cl ->
  (0 < length (c_hosts cl))%nat ->
  Z.of_nat (length (c_hosts cl)) < uint32_modulus ->
  Forall (fun p => is_Some (hosts w !! p)) (c_hosts cl) ->
  Forall (fun p => stored_load w p <> 0) (c_hosts cl) ->
  let hs := c_hosts cl in
  let start := start_index (nextIdx cl) (length hs) in
  exists (k : nat) (w' : world),
    (k < length hs)%nat
    /\ getHost c w = Done (scanned_host hs start k) w'
    /\ hosts w' = hosts w
    /\ (forall p : ptr, p ∈ hs ->
          stored_load w (scanned_host hs start k) <= stored_load w p)
    /\ (forall j : nat, (j < k)%nat ->
          stored_load w (scanned_host hs start k)
          < stored_load w (scanned_host hs start j))
    /\ ((forall p : ptr, p ∈ hs ->
           stored_load w (scanned_host hs start 0) <= stored_load w p) ->
        k = 0%nat).
Proof.
  intros Hc Hn Hfits Hvalid Hbusy hs start.
  destruct (getHost_selected w c cl Hc Hn Hfits Hvalid)
    as (k & Hk & Hrun & Hsel).
  fold hs in Hk, Hrun, Hsel. fold start in Hrun, Hsel.
  exists k. eexists. split; [exact Hk |]. split; [exact Hrun |].
  split; [reflexivity |].
  destruct Hsel as [[Hzero _] | (_ & Hmin & Hfirst)].
  { exfalso. rewrite Forall_forall in Hbusy.
    apply (Hbusy (scanned_host hs start k)).
    - apply scanned_host_elem. exact Hn.
    - rewrite <- load_stored_load. exact Hzero. }
  split; [| split].
  - intros p Hp. rewrite <- !load_stored_load.
    destruct (scanned_host_onto hs start p Hp) as (j & Hj & <-).
    apply Hmin. exact Hj.
  - intros j Hj. rewrite <- !load_stored_load. now apply Hfirst.
  - intros Hstart0. destruct k as [|k]; [reflexivity |].
    exfalso. specialize (Hfirst 0%nat ltac:(lia)).
    specialize (Hstart0 (scanned_host hs start (S k))
                  ltac:(apply scanned_host_elem; exact Hn)).
    rewrite <- !load_stored_load in Hstart0.
    lia.
Qed.

(** *** Host selection on the sample stores *)

Lemma getHost_returns_idle_host_witness :
  clusters full_world !! 0%nat = Some (sample_cluster 10 "admin")
  /\ Exists (fun p => host_count full_world p = Some 0)
       (c_hosts (sample_cluster 10 "admin"))
  /\ host_count full_world 2%nat = Some 4
  /\ exists w' : world,
       getHost 0%nat full_world = Done 1%nat w'
       /\ 1%nat ∈ c_hosts (sample_cluster 10 "admin")
       /\ hosts w' = hosts full_world
       /\ host_count w' 1%nat = Some 0.
Proof.
  split; [reflexivity |].
  assert (Hidle : Exists (fun p => host_count full_world p = Some 0)
                    (c_hosts (sample_cluster 10 "admin"))).
  { apply Exists_cons_tl, Exists_cons_hd. reflexivity. }
  split; [exact Hidle |]. split; [reflexivity |].
  destruct (getHost_returns_idle_host full_world 0%nat
              (sample_cluster 10 "admin") eq_refl ltac:(simpl; lia) eq_refl
              ltac:(repeat constructor; eexists; reflexivity) Hidle)
    as (p & w' & Hrun & Hin & Hhosts & Hzero).
  eassert (Hc : getHost 0%nat full_world = Done _ _)
    by (vm_compute; reflexivity).
  rewrite Hc in Hrun. injection Hrun as <- <-.
  eexists. split; [exact Hc |].
  split; [exact Hin |]. split; [exact Hhosts | exact Hzero].
Defined.

Lemma getHost_returns_first_least_loaded_witness :
  clusters tied_world !! 0%nat = Some (sample_cluster 8 "admin")
  /\ Forall (fun p => stored_load tied_world p <> 0)
       (c_hosts (sample_cluster 8 "admin"))
  /\ stored_load tied_world 0%nat = 5
  /\ stored_load tied_world 1%nat = 3
  /\ stored_load tied_world 2%nat = 3
  /\ start_index 8 3 = 0
  /\ exists (k : nat) (w' : world),
       (k < 3)%nat
       /\ getHost 0%nat tied_world = Done 1%nat w'
       /\ scanned_host [0; 1; 2]%nat 0 k = 1%nat
       /\ hosts w' = hosts tied_world
       /\ (forall p : ptr, p ∈ [0; 1; 2]%nat ->
             stored_load tied_world 1%nat <= stored_load tied_world p)
       /\ (forall j : nat, (j < k)%nat ->
             stored_load tied_world 1%nat
             < stored_load tied_world (scanned_host [0; 1; 2]%nat 0 j)).
Proof.
  split; [reflexivity |].
  assert (Hbusy : Forall (fun p => stored_load tied_world p <> 0)
                    (c_hosts (sample_cluster 8 "admin"))).
  { repeat constructor; discriminate. }
  split; [exact Hbusy |].
  repeat (split; [reflexivity |]).
  destruct (getHost_returns_first_least_loaded tied_world 0%nat
              (sample_cluster 8 "admin") eq_refl ltac:(simpl; lia) eq_refl
              ltac:(repeat constructor; eexists; reflexivity) Hbusy)
    as (k & w' & Hk & Hrun & Hhosts & Hmin & Hfirst & _).
  cbv zeta in Hk, Hrun, Hmin, Hfirst.
  remember (scanned_host (c_hosts (sample_cluster 8 "admin"))
              (start_index (nextIdx (sample_cluster 8 "admin"))
                 (length (c_hosts (sample_cluster 8 "admin")))) k)
    as r eqn:Er in Hrun, Hmin, Hfirst.
  eassert (Hc : getHost 0%nat tied_world = Done _ _)
    by (vm_compute; reflexivity).
  rewrite Hc in Hrun. injection Hrun as <- <-.
  exists k. eexists. split; [exact Hk |]. split; [exact Hc |].
  split; [symmetry; exact Er |]. split; [exact Hhosts |].
  split; [exact Hmin | exact Hfirst].
Defined.

(** ** Round robin on an idle cluster *)

Lemma mod_mod_divide (x n m : Z) :
  0 < n -> 0 < m -> (n | m) -> (x mod m) mod n = x mod n.
Proof.
  intros Hn Hm [q Hq]. rewrite (Z.mod_eq x m) by lia.
  replace (x - m * (x / m)) with (x + (- (x / m) * q) * n)
    by (rewrite Hq; ring).
  apply Z.mod_add. lia.
Qed.

Lemma mod_eq_near (a x y n : Z) :
  0 < n -> (a + x) mod n = (a + y) mod n -> - n < x - y < n -> x = y.
Proof.
  intros Hn E Hd.
  pose proof (Z.div_mod (a + x) n ltac:(lia)) as Hx.
  pose proof (Z.div_mod (a + y) n ltac:(lia)) as Hy.
  rewrite E in Hx.
  set (qx := (a + x) / n) in *. set (qy := (a + y) / n) in *.
  assert (Hq : x - y = n * (qx - qy)) by lia.
  assert (qx - qy <= -1 \/ qx - qy = 0 \/ 1 <= qx - qy) as [H|[H|H]] by lia;
    nia.
Qed.

(** The hosts the cursor points at during [m] calls, by residues. *)
Lemma cursor_hosts_residues (hs : list ptr) (m : nat) :
  forall cursor a : Z,
    (0 < length hs)%nat ->
    cursor mod Z.of_nat (length hs) = a mod Z.of_nat (length hs) ->
    (0 <= cursor /\ cursor + Z.of_nat m < uint32_modulus)
    \/ (Z.of_nat (length hs) | uint32_modulus) ->
    cursor_hosts hs cursor m
    = (fun k : nat =>
         hs !!! Z.to_nat ((a + Z.of_nat k) mod Z.of_nat (length hs)))
      <$> seq 1 m.
Proof.
  induction m as [|m IH]; intros cursor a Hn Hres Hcase; [reflexivity |].
  set (n := Z.of_nat (length hs)) in *.
  assert (Hn' : 0 < n) by (subst n; lia).
  assert (Hnext : atomic_AddUint32 cursor 1 mod n = (a + 1) mod n).
  { unfold atomic_AddUint32, wrap32.
    transitivity ((cursor + 1) mod n).
    - destruct Hcase as [[H0 Hsmall]|Hdiv].
      + rewrite (Z.mod_small (cursor + 1)) by lia. reflexivity.
      + apply mod_mod_divide; [exact Hn' | reflexivity | exact Hdiv].
    - rewrite <- (Z.add_mod_idemp_l cursor) by lia.
      rewrite <- (Z.add_mod_idemp_l a) by lia. now rewrite Hres. }
  cbn [cursor_hosts seq fmap list_fmap]. fold n. f_equal.
  - now rewrite Hnext.
  - rewrite (IH (atomic_AddUint32 cursor 1) (a + 1) Hn Hnext).
    + rewrite <- (fmap_S_seq 1 m), <- list_fmap_compose.
      apply list_fmap_ext. intros _ k _. cbn. fold n.
      do 3 f_equal. lia.
    + destruct Hcase as [[H0 Hsmall]|Hdiv]; [left | right; exact Hdiv].
      unfold atomic_AddUint32, wrap32.
      rewrite (Z.mod_small (cursor + 1)) by lia. lia.
Qed.

Lemma cursor_hosts_NoDup (hs : list ptr) (cursor : Z) :
  (0 < length hs)%nat ->
  NoDup hs ->
  (0 <= cursor /\ cursor + Z.of_nat (length hs) < uint32_modulus)
  \/ (Z.of_nat (length hs) | uint32_modulus) ->
  NoDup (cursor_hosts hs cursor (length hs)).
Proof.
  intros Hn Hnd Hcase.
  rewrite (cursor_hosts_residues hs (length hs) cursor cursor Hn eq_refl Hcase).
  apply NoDup_fmap_2_strong; [| apply NoDup_seq].
  intros x y Hx Hy E.
  apply elem_of_seq in Hx. apply elem_of_seq in Hy.
  set (n := Z.of_nat (length hs)) in *.
  pose proof (Z.mod_pos_bound (cursor + Z.of_nat x) n ltac:(subst n; lia)) as Bx.
  pose proof (Z.mod_pos_bound (cursor + Z.of_nat y) n ltac:(subst n; lia)) as By.
  assert (Hlx : hs !! Z.to_nat ((cursor + Z.of_nat x) mod n)
                = Some (hs !!! Z.to_nat ((cursor + Z.of_nat x) mod n))).
  { apply list_lookup_lookup_total_lt. subst n. lia. }
  assert (Hly : hs !! Z.to_nat ((cursor + Z.of_nat y) mod n)
                = Some (hs !!! Z.to_nat ((cursor + Z.of_nat x) mod n))).
  { rewrite E. apply list_lookup_lookup_total_lt. subst n. lia. }
  pose proof (NoDup_lookup _ _ _ _ Hnd Hlx Hly) as Hidx.
  assert (Hmod : (cursor + Z.of_nat x) mod n = (cursor + Z.of_nat y) mod n)
    by lia.
  apply Nat2Z.inj. apply (mod_eq_near cursor _ _ n); [subst n | | subst n]; lia.
Qed.

Lemma cursor_hosts_length (hs : list ptr) (m : nat) :
  forall cursor : Z, length (cursor_hosts hs cursor m) = m.
Proof. induction m as [|m IH]; intros cursor; simpl; [| rewrite IH]; reflexivity. Qed.

(** On an idle cluster [getHost] takes the fast path. *)
Lemma getHost_idle (w : world) (c : ptr) (cl : cluster) :
  clusters w !! c = Some cl ->
  (0 < length (c_hosts cl))%nat ->
  Z.of_nat (length (c_hosts cl)) < uint32_modulus ->
  Forall (fun p => is_Some (hosts w !! p)) (c_hosts cl) ->
  Forall (fun p => load w p = 0) (c_hosts cl) ->
  getHost c w
  = Done (c_hosts cl !!! Z.to_nat (start_index (nextIdx cl)
                                     (length (c_hosts cl))))
      (set_clusters (fun l =>
         <[c := with_nextIdx (atomic_AddUint32 (nextIdx cl) 1) cl]> l) w).
Proof.
  intros Hc Hn Hfits Hvalid Hidle.
  destruct (getHost_selected w c cl Hc Hn Hfits Hvalid)
    as (k & Hk & Hrun & Hsel).
  set (start := start_index (nextIdx cl) (length (c_hosts cl))) in *.
  assert (Hstart : 0 <= start < Z.of_nat (length (c_hosts cl))).
  { unfold start, start_index. apply Z.mod_pos_bound. lia. }
  assert (H0 : load w (scanned_host (c_hosts cl) start 0) = 0).
  { rewrite Forall_forall in Hidle. apply Hidle.
    apply scanned_host_elem. exact Hn. }
  assert (k = 0%nat) as ->.
  { destruct Hsel as [[_ Hfirst] | [Hnone _]].
    - destruct k as [|k]; [reflexivity |].
      exfalso. apply (Hfirst 0%nat); [lia | exact H0].
    - exfalso. apply (Hnone 0%nat Hn H0). }
  rewrite Hrun. unfold scanned_host. now rewrite scan_position_0.
Qed.

Lemma getHost_n_idle (c : ptr) (m : nat) :
  forall (w : world) (cl : cluster),
    clusters w !! c = Some cl ->
    (0 < length (c_hosts cl))%nat ->
    Z.of_nat (length (c_hosts cl)) < uint32_modulus ->
    Forall (fun p => is_Some (hosts w !! p)) (c_hosts cl) ->
    Forall (fun p => load w p = 0) (c_hosts cl) ->
    exists w' : world,
      getHost_n m c w = Done (cursor_hosts (c_hosts cl) (nextIdx cl) m) w'
      /\ hosts w' = hosts w.
Proof.
  induction m as [|m IH]; intros w cl Hc Hn Hfits Hvalid Hidle.
  - exists w. split; reflexivity.
  - cbn [getHost_n cursor_hosts].
    rewrite (bind_Done _ _ _ _ _ (getHost_idle w c cl Hc Hn Hfits Hvalid Hidle)).
    set (cl' := with_nextIdx (atomic_AddUint32 (nextIdx cl) 1) cl).
    set (w1 := set_clusters (fun l => <[c := cl']> l) w).
    assert (Hc1 : clusters w1 !! c = Some cl').
    { simpl. apply list_lookup_insert_eq. eapply lookup_lt_Some; eauto. }
    destruct (IH w1 cl' Hc1 Hn Hfits Hvalid Hidle) as (w' & Hrun & Hh).
    exists w'. split; [| exact Hh].
    rewrite (bind_Done _ _ _ _ _ Hrun). reflexivity.
Qed.

(** C6, as the code has it.  On a cluster of N hosts that all run no query,
    N calls of [getHost] in a row return N different hosts provided the
    cursor does not pass the end of the [uint32] range during these calls,
    or N divides 2^32. *)
Theorem getHost_round_robin_idle (w : world) (c : ptr) (cl : cluster) :
  clusters w !! c = Some cl ->
  (0 < length (c_hosts cl))%nat ->
  Z.of_nat (length (c_hosts cl)) < uint32_modulus ->
  NoDup (c_hosts cl) ->
  Forall (fun p => is_Some (hosts w !! p)) (c_hosts cl) ->
  Forall (fun p => load w p = 0) (c_hosts cl) ->
  is_uint32 (nextIdx cl) ->
  nextIdx cl + Z.of_nat (length (c_hosts cl)) < uint32_modulus
  \/ (Z.of_nat (length (c_hosts cl)) | uint32_modulus) ->
  exists (res : list ptr) (w' : world),
    getHost_n (length (c_hosts cl)) c w = Done res w'
    /\ length res = length (c_hosts cl)
    /\ NoDup res.
Proof.
  intros Hc Hn Hfits Hnd Hvalid Hidle Hcur Hcase.
  destruct (getHost_n_idle c (length (c_hosts cl)) w cl Hc Hn Hfits Hvalid
              Hidle) as (w' & Hrun & _).
  eexists _, _. split; [exact Hrun |]. split.
  - apply cursor_hosts_length.
  - apply cursor_hosts_NoDup; [exact Hn | exact Hnd |].
    destruct Hcase as [Hsmall|Hdiv]; [left | right; exact Hdiv].
    unfold is_uint32 in Hcur. lia.
Qed.

Lemma getHost_round_robin_idle_witness :
  clusters idle_world !! 0%nat = Some (sample_cluster 10 "admin")
  /\ Forall (fun p => load idle_world p = 0)
       (c_hosts (sample_cluster 10 "admin"))
  /\ exists (res : list ptr) (w' : world),
       getHost_n 3 0%nat idle_world = Done res w'
       /\ length res = 3%nat
       /\ NoDup res.
Proof.
  split; [reflexivity |].
  assert (Hidle : Forall (fun p => load idle_world p = 0)
                    (c_hosts (sample_cluster 10 "admin"))).
  { repeat constructor. }
  split; [exact Hidle |].
  apply (getHost_round_robin_idle idle_world 0%nat
           (sample_cluster 10 "admin")).
  - reflexivity.
  - simpl. lia.
  - reflexivity.
  - compute_done.
  - repeat constructor; eexists; reflexivity.
  - exact Hidle.
  - split; [discriminate | reflexivity].
  - left. reflexivity.
Defined.

(** C6, as stated, fails: three idle hosts and the cursor two steps before
    the end of the [uint32] range; the second call returns the host the
    first call returned. *)
Lemma getHost_round_robin_repeats_at_wrap :
  Forall (fun p => load wrapping_world p = 0) [0; 1; 2]%nat
  /\ exists (res : list ptr) (w' : world),
       getHost_n 3 0%nat wrapping_world = Done res w'
       /\ ~ NoDup res.
Proof.
  split; [repeat constructor |].
  eexists _, _. split; [vm_compute; reflexivity |].
  intros Hnd. apply NoDup_cons in Hnd as [Hnotin _].
  apply Hnotin. left.
Qed.

(** ** The kill-query protocol: [killQueries] *)

Section KillQueries.

Context {ext : Externals}.

Lemma killQueries_range_accept (cl : cluster) (query : string) (hp : ptr)
    (rest : list ptr) (h : host) (w : world) :
  hosts w !! hp = Some h ->
  node_accepts cl query h (trace w) ->
  killQueries_range cl query (hp :: rest) w
  = killQueries_range cl query rest
      (set_trace (fun t => t ++ kill_events cl query h) w).
Proof.
  intros Hh (Hnew & resp & Hdo & Hok).
  cbn [killQueries_range].
  erewrite bind_Done; [| unfold deref; rewrite Hh; reflexivity].
  unfold emit at 1, bind at 1. unfold http_NewRequest. rewrite Hnew.
  unfold client_Do at 1, bind at 1. cbn [trace set_trace].
  unfold setAuth. cbn [req_method req_url req_body].
  fold (kill_request cl query h). rewrite Hdo, Hok.
  rewrite Z.eqb_refl. cbn [negb]. f_equal.
  apply world_eq; try reflexivity. cbn. now rewrite <- app_assoc.
Qed.

Lemma killQueries_range_fail (cl : cluster) (query : string) (hp : ptr)
    (rest : list ptr) (h : host) (w : world) (e : string)
    (evs : list event) :
  hosts w !! hp = Some h ->
  node_fails cl query h (trace w) e evs ->
  killQueries_range cl query (hp :: rest) w
  = Done (Some e) (set_trace (fun t => t ++ evs) w).
Proof.
  intros Hh Hfail. cbn [killQueries_range].
  erewrite bind_Done; [| unfold deref; rewrite Hh; reflexivity].
  unfold emit at 1, bind at 1. unfold http_NewRequest.
  destruct Hfail as [err Hnew | err Hnew Hdo | resp Hnew Hdo Hstatus].
  - rewrite Hnew. reflexivity.
  - rewrite Hnew. unfold client_Do at 1, bind at 1. cbn [trace set_trace].
    unfold setAuth. cbn [req_method req_url req_body].
    fold (kill_request cl query h). rewrite Hdo. unfold ret. f_equal.
    apply world_eq; try reflexivity. cbn. now rewrite <- app_assoc.
  - rewrite Hnew. unfold client_Do at 1, bind at 1. cbn [trace set_trace].
    unfold setAuth. cbn [req_method req_url req_body].
    fold (kill_request cl query h). rewrite Hdo.
    apply Z.eqb_neq in Hstatus. rewrite Hstatus. cbn [negb].
    unfold ret. f_equal.
    apply world_eq; try reflexivity. cbn. now rewrite <- app_assoc.
Qed.

(** The loop over the hosts stops at the first host that fails. *)
Lemma killQueries_range_stops (cl : cluster) (query : string) (hp : ptr)
    (post : list ptr) (h : host) (e : string) (evs : list event) :
  forall (pre : list ptr) (pre_hosts : list host) (w : world),
    Forall2 (fun p h' => hosts w !! p = Some h') pre pre_hosts ->
    hosts w !! hp = Some h ->
    all_accept cl query pre_hosts (trace w) ->
    node_fails cl query h
      (trace w ++ concat (kill_events cl query <$> pre_hosts)) e evs ->
    killQueries_range cl query (pre ++ hp :: post) w
    = Done (Some e)
        (set_trace (fun t =>
           t ++ concat (kill_events cl query <$> pre_hosts) ++ evs) w).
Proof.
  intros pre pre_hosts. revert pre.
  induction pre_hosts as [|h0 hs0 IH]; intros pre w Hpre Hh Hall Hfail.
  - apply Forall2_nil_inv_r in Hpre as ->. cbn [app fmap list_fmap concat].
    cbn [fmap list_fmap concat] in Hfail. rewrite app_nil_r in Hfail.
    eapply killQueries_range_fail; eassumption.
  - apply Forall2_cons_inv_r in Hpre as (p0 & pre0 & Hp0 & Hpre0 & ->).
    destruct Hall as [Hacc Hall].
    rewrite <- app_comm_cons.
    rewrite (killQueries_range_accept cl query p0 _ h0 w Hp0 Hacc).
    set (w1 := set_trace (fun t => t ++ kill_events cl query h0) w).
    rewrite (IH pre0 w1).
    + f_equal. apply world_eq; try reflexivity.
      cbn [trace set_trace w1 fmap list_fmap concat].
      now rewrite <- !app_assoc.
    + exact Hpre0.
    + exact Hh.
    + exact Hall.
    + cbn [trace set_trace w1]. cbn [fmap list_fmap concat] in Hfail.
      now rewrite <- app_assoc.
Qed.

(** C7.  With an administrative user configured, when the hosts before
    [hp] in the cluster all take the request and [hp] fails (its request
    cannot be built, is not transported, or is answered with a status other
    than 200), [killQueries] returns the error of [hp]; the trace holds the
    requests to the hosts before [hp], in the order of the cluster, then
    the attempt on [hp], and nothing about the hosts after it. *)
Theorem killQueries_stops_at_first_failure (w : world) (c : ptr)
    (cl : cluster) (ua : string) (elapsed : float64)
    (pre : list ptr) (hp : ptr) (post : list ptr)
    (pre_hosts : list host) (h : host) (e : string) (evs : list event) :
  clusters w !! c = Some cl ->
  killQueryUserName cl <> EmptyString ->
  c_hosts cl = pre ++ hp :: post ->
  Forall2 (fun p h' => hosts w !! p = Some h') pre pre_hosts ->
  hosts w !! hp = Some h ->
  let query := kill_statement ua elapsed in
  all_accept cl query pre_hosts (trace w) ->
  node_fails cl query h
    (trace w ++ concat (kill_events cl query <$> pre_hosts)) e evs ->
  killQueries c ua elapsed w
  = Done (Some e)
      (set_trace (fun t =>
         t ++ concat (kill_events cl query <$> pre_hosts) ++ evs) w).
Proof.
  intros Hc Hadmin Hhosts Hpre Hh query Hall Hfail.
  unfold killQueries.
  erewrite bind_Done; [| unfold deref; rewrite Hc; reflexivity].
  assert (Hlen : (String.length (killQueryUserName cl) =? 0)%nat = false)
    by (destruct (killQueryUserName cl); [contradiction | reflexivity]).
  rewrite Hlen, Hhosts. fold query.
  eapply killQueries_range_stops; eassumption.
Qed.

(** C8.  On a cluster whose administrative user name is empty,
    [killQueries] returns no error and leaves the store and the trace as
    they are: it sends nothing. *)
Theorem killQueries_without_admin_is_noop (w : world) (c : ptr)
    (cl : cluster) (ua : string) (elapsed : float64) :
  clusters w !! c = Some cl ->
  killQueryUserName cl = EmptyString ->
  killQueries c ua elapsed w = Done None w.
Proof.
  intros Hc Hname. unfold killQueries.
  erewrite bind_Done; [| unfold deref; rewrite Hc; reflexivity].
  rewrite Hname. reflexivity.
Qed.

End KillQueries.

(** ** The statement [killQueries] sends *)






Section KillStatement.

Context {ext : Externals}.

Lemma node_accepts_or_fails (cl : cluster) (query : string) (h : host)
    (tr : list event) :
  node_accepts cl query h tr
  \/ exists (e : string) (evs : list event), node_fails cl query h tr e evs.
Proof.
  destruct (http_NewRequest_error "POST" (URL_String (addr h)))
    as [err|] eqn:Hnew.
  { right. eexists _, _. apply fails_to_construct. exact Hnew. }
  destruct (client_Do_answer
              (tr ++ [EvNewRequest "POST" (URL_String (addr h)) query])
              (kill_request cl query h)) as [err|resp] eqn:Hdo.
  { right. eexists _, _. eapply fails_to_transport; eassumption. }
  destruct (decide (StatusCode resp = StatusOK)) as [Hok|Hko].
  - left. split; [exact Hnew |]. exists resp. split; assumption.
  - right. eexists _, _. eapply fails_with_status; eassumption.
Qed.

Lemma kill_events_bodies (cl : cluster) (query : string) (h : host) :
  Forall (fun ev => event_body ev = Some query) (kill_events cl query h).
Proof. repeat constructor. Qed.

Lemma node_fails_bodies (cl : cluster) (query : string) (h : host)
    (tr : list event) (e : string) (evs : list event) :
  node_fails cl query h tr e evs ->
  Forall (fun ev => event_body ev = Some query) evs.
Proof. intros []; repeat constructor. Qed.

(** The loop terminates on every list of valid hosts; every event it
    records carries the statement, and when it reports no error every host
    was sent the request, in order. *)
Lemma killQueries_range_bodies (cl : cluster) (query : string) :
  forall (hs_hosts : list host) (hs : list ptr) (w : world),
    Forall2 (fun p h => hosts w !! p = Some h) hs hs_hosts ->
    exists (r : option string) (evs : list event),
      killQueries_range cl query hs w
      = Done r (set_trace (fun t => t ++ evs) w)
      /\ Forall (fun ev => event_body ev = Some query) evs
      /\ (r = None -> evs = concat (kill_events cl query <$> hs_hosts)).
Proof.
  induction hs_hosts as [|h hs_hosts IH]; intros hs w Hhs.
  - apply Forall2_nil_inv_r in Hhs as ->. exists None, [].
    split; [| split; [constructor | reflexivity]].
    cbn [killQueries_range]. unfold ret. f_equal.
    apply world_eq; try reflexivity. cbn. now rewrite app_nil_r.
  - apply Forall2_cons_inv_r in Hhs as (p & ps & Hp & Hps & ->).
    destruct (node_accepts_or_fails cl query h (trace w))
      as [Hacc | (e & evs & Hfail)].
    + rewrite (killQueries_range_accept cl query p ps h w Hp Hacc).
      destruct (IH ps (set_trace (fun t => t ++ kill_events cl query h) w)
                  Hps) as (r & evs & Hrun & Hbodies & Hall).
      exists r, (kill_events cl query h ++ evs). split; [| split].
      * rewrite Hrun. f_equal. apply world_eq; try reflexivity.
        cbn. now rewrite <- app_assoc.
      * apply Forall_app. split; [apply kill_events_bodies | exact Hbodies].
      * intros Hr. rewrite (Hall Hr). reflexivity.
    + exists (Some e), evs. split; [| split].
      * eapply killQueries_range_fail; eassumption.
      * eapply node_fails_bodies; eassumption.
      * discriminate.
Qed.

Lemma sent_requests_kill_events (cl : cluster) (query : string)
    (hs_hosts : list host) :
  sent_requests (concat (kill_events cl query <$> hs_hosts))
  = kill_request cl query <$> hs_hosts.
Proof.
  induction hs_hosts as [|h hs_hosts IH]; [reflexivity |].
  cbn [fmap list_fmap concat]. unfold sent_requests in *.
  cbn [kill_events app omap list_omap]. now rewrite IH.
Qed.




End KillStatement.

(** *** The kill-query protocol on the sample stores *)

Lemma killQueries_stops_at_first_failure_witness :
  clusters idle_world !! 0%nat = Some (sample_cluster 10 "admin")
  /\ hosts idle_world !! 1%nat = Some (sample_host "n2" 0)
  /\ exists (e : string) (w' : world),
       @killQueries sample_ext 0%nat "agent" (F_finite 11 (-1)) idle_world
       = Done (Some e) w'
       /\ sent_requests (trace w')
          = [@kill_request sample_ext (sample_cluster 10 "admin")
               "KILL QUERY WHERE http_user_agent = 'agent' AND elapsed >= 5"
               (sample_host "n1" 0);
             @kill_request sample_ext (sample_cluster 10 "admin")
               "KILL QUERY WHERE http_user_agent = 'agent' AND elapsed >= 5"
               (sample_host "n2" 0)].
Proof.
  split; [reflexivity |]. split; [reflexivity |].
  eexists _, _. split.
  - apply (@killQueries_stops_at_first_failure sample_ext idle_world 0%nat
             (sample_cluster 10 "admin") "agent" (F_finite 11 (-1))
             [0%nat] 1%nat [2%nat]
             [sample_host "n1" 0] (sample_host "n2" 0)).
    + reflexivity.
    + discriminate.
    + reflexivity.
    + repeat constructor.
    + reflexivity.
    + split; [| exact I]. split; [reflexivity |].
      eexists. split; reflexivity.
    + apply (@fails_with_status sample_ext _ _ _ _
               {| StatusCode := 500; Body := "boom" |});
        [reflexivity | reflexivity | discriminate].
  - reflexivity.
Defined.

Lemma killQueries_without_admin_is_noop_witness :
  clusters no_admin_world !! 0%nat = Some (sample_cluster 10 EmptyString)
  /\ @killQueries sample_ext 0%nat "agent" (F_finite 11 (-1)) no_admin_world
     = Done None no_admin_world.
Proof.
  split; [reflexivity |].
  apply (@killQueries_without_admin_is_noop sample_ext no_admin_world 0%nat
           (sample_cluster 10 EmptyString)); reflexivity.
Defined.


(** * Further properties of the code *)

(** ** Counters *)

Lemma wrap32_range (z : Z) : is_uint32 (wrap32 z).
Proof. unfold is_uint32, wrap32. apply Z.mod_pos_bound. reflexivity. Qed.

Lemma dec_value (v : Z) :
  atomic_AddUint32 v (wrap32 (Z.lnot 0)) = wrap32 (v - 1).
Proof.
  unfold atomic_AddUint32. rewrite wrap32_lnot_0. unfold wrap32.
  replace (v + (uint32_modulus - 1)) with (v - 1 + 1 * uint32_modulus) by lia.
  apply Z.mod_add. discriminate.
Qed.

Lemma dec_then_inc_value (v : Z) :
  is_uint32 v ->
  atomic_AddUint32 (atomic_AddUint32 v (wrap32 (Z.lnot 0))) 1 = v.
Proof.
  unfold is_uint32, atomic_AddUint32. rewrite wrap32_lnot_0.
  unfold wrap32, uint32_modulus. change (2 ^ 32) with 4294967296.
  intros Hv. Z.div_mod_to_equations. lia.
Qed.

(** X1.  On a counter that holds a [uint32], [dec] undoes [inc] and [inc]
    undoes [dec], also across the ends of the range, and both leave a
    [uint32] in the counter. *)
Theorem queryCounter_inc_dec_inverse (qc : queryCounter) :
  wf_counter qc ->
  queryCounter_dec (queryCounter_inc qc).2 = qc
  /\ (queryCounter_inc (queryCounter_dec qc)).2 = qc
  /\ wf_counter (queryCounter_inc qc).2
  /\ wf_counter (queryCounter_dec qc).
Proof.
  intros Hqc. split; [now apply queryCounter_inc_dec |].
  split; [| split].
  - destruct qc as [v]. unfold queryCounter_inc, queryCounter_dec. cbn.
    f_equal. now apply dec_then_inc_value.
  - apply wrap32_range.
  - apply wrap32_range.
Qed.

Lemma queryCounter_inc_dec_inverse_witness :
  wf_counter {| value := 4294967295 |}
  /\ queryCounter_dec (queryCounter_inc {| value := 4294967295 |}).2
     = {| value := 4294967295 |}
  /\ (queryCounter_inc (queryCounter_dec {| value := 4294967295 |})).2
     = {| value := 4294967295 |}
  /\ wf_counter (queryCounter_inc {| value := 4294967295 |}).2
  /\ wf_counter (queryCounter_dec {| value := 4294967295 |}).
Proof.
  assert (H : wf_counter {| value := 4294967295 |}).
  { split; [discriminate | reflexivity]. }
  split; [exact H |].
  apply (queryCounter_inc_dec_inverse {| value := 4294967295 |} H).
Defined.

Section MoreAccounting.

Context {ext : Externals}.

Lemma dec_nil (r : counter_ref) (w : world) :
  match r with
  | UserCounter p => users w !! p = None
  | ClusterUserCounter p => clusterUsers w !! p = None
  | HostCounter p => hosts w !! p = None
  end ->
  dec r w = Panic.
Proof.
  destruct r as [p|p|p]; intros H;
    unfold dec, load_counter, bind, deref; now rewrite H.
Qed.

Lemma scope_dec_Done_lookups (s : scope) (w w' : world) :
  scope_dec s w = Done tt w' ->
  exists u cu h,
    users w !! s_user s = Some u
    /\ clusterUsers w !! s_clusterUser s = Some cu
    /\ hosts w !! s_host s = Some h.
Proof.
  intros H.
  destruct (hosts w !! s_host s) as [h|] eqn:Hh.
  2: { exfalso. revert H. unfold scope_dec, bind at 1.
       erewrite dec_nil; [discriminate | exact Hh]. }
  destruct (users w !! s_user s) as [u|] eqn:Hu.
  2: { exfalso. revert H. unfold scope_dec.
       rewrite (bind_Done _ _ _ _ _ (dec_host w _ h Hh)).
       unfold bind at 1. erewrite dec_nil; [discriminate | exact Hu]. }
  destruct (clusterUsers w !! s_clusterUser s) as [cu|] eqn:Hcu.
  2: { exfalso. revert H. unfold scope_dec.
       rewrite (bind_Done _ _ _ _ _ (dec_host w _ h Hh)).
       erewrite bind_Done; [| apply dec_user; exact Hu].
       erewrite dec_nil; [discriminate | exact Hcu]. }
  eauto 6.
Qed.

(** X2.  [scope.dec] has no error path: on a scope whose three pointers are
    valid it takes one off each of the three counters, modulo 2^32, so a
    counter that holds 0 (a release without an admission) ends at
    4294967295; nothing else in the store changes. *)
Theorem scope_dec_decrements (s : scope) (w : world) (u : user)
    (cu : clusterUser) (h : host) :
  users w !! s_user s = Some u ->
  clusterUsers w !! s_clusterUser s = Some cu ->
  hosts w !! s_host s = Some h ->
  exists w' : world,
    scope_dec s w = Done tt w'
    /\ user_count w' (s_user s)
       = Some (wrap32 (value (u_queryCounter u) - 1))
    /\ clusterUser_count w' (s_clusterUser s)
       = Some (wrap32 (value (cu_queryCounter cu) - 1))
    /\ host_count w' (s_host s)
       = Some (wrap32 (value (h_queryCounter h) - 1))
    /\ (value (u_queryCounter u) = 0 ->
        user_count w' (s_user s) = Some 4294967295)
    /\ clusters w' = clusters w /\ scopeId w' = scopeId w.
Proof.
  intros Hu Hcu Hh. exists (after_dec s u cu h w).
  split; [now apply scope_dec_run |].
  assert (Eu : user_count (after_dec s u cu h w) (s_user s)
               = Some (wrap32 (value (u_queryCounter u) - 1))).
  { unfold user_count, after_dec. cbn [users].
    rewrite list_lookup_insert_eq by (eapply lookup_lt_Some; eauto).
    cbn. now rewrite dec_value. }
  split; [exact Eu |]. split; [| split; [| split]].
  - unfold clusterUser_count, after_dec. cbn [clusterUsers].
    rewrite list_lookup_insert_eq by (eapply lookup_lt_Some; eauto).
    cbn. now rewrite dec_value.
  - unfold host_count, after_dec. cbn [hosts].
    rewrite list_lookup_insert_eq by (eapply lookup_lt_Some; eauto).
    cbn. now rewrite dec_value.
  - intros Hz. rewrite Eu, Hz. reflexivity.
  - split; reflexivity.
Qed.

(** X3.  When [scope.inc] returns no error, each of the three counters of
    the scope holds one more than before, modulo 2^32; the other users,
    cluster users and hosts, the clusters and the scope identifier are
    untouched; and a positive limit is not exceeded by the new count. *)
Theorem scope_inc_success_effect (s : scope) (w w' : world) :
  scope_inc s w = Done None w' ->
  exists u cu h,
    users w !! s_user s = Some u
    /\ clusterUsers w !! s_clusterUser s = Some cu
    /\ hosts w !! s_host s = Some h
    /\ user_count w' (s_user s)
       = Some (wrap32 (value (u_queryCounter u) + 1))
    /\ clusterUser_count w' (s_clusterUser s)
       = Some (wrap32 (value (cu_queryCounter cu) + 1))
    /\ host_count w' (s_host s)
       = Some (wrap32 (value (h_queryCounter h) + 1))
    /\ (forall p : ptr, p <> s_user s -> users w' !! p = users w !! p)
    /\ (forall p : ptr, p <> s_clusterUser s ->
          clusterUsers w' !! p = clusterUsers w !! p)
    /\ (forall p : ptr, p <> s_host s -> hosts w' !! p = hosts w !! p)
    /\ clusters w' = clusters w /\ scopeId w' = scopeId w
    /\ (0 < u_maxConcurrentQueries u ->
        wrap32 (value (u_queryCounter u) + 1) <= u_maxConcurrentQueries u)
    /\ (0 < cu_maxConcurrentQueries cu ->
        wrap32 (value (cu_queryCounter cu) + 1)
        <= cu_maxConcurrentQueries cu).
Proof.
  intros H.
  destruct (scope_inc_Done_lookups _ _ _ _ H) as (u & cu & h & Hu & Hcu & Hh).
  pose proof (scope_inc_run s w u cu h Hu Hcu Hh) as Hrun. cbv zeta in Hrun.
  rewrite Hrun in H.
  pose proof (inc_error_Some_iff u cu) as Hiff.
  destruct (inc_error u cu) as [e|] eqn:He; [discriminate |].
  injection H as <-.
  exists u, cu, h. repeat (split; [assumption |]).
  split; [| split; [| split]].
  - unfold user_count, after_inc. cbn [users].
    rewrite list_lookup_insert_eq by (eapply lookup_lt_Some; eauto).
    reflexivity.
  - unfold clusterUser_count, after_inc. cbn [clusterUsers].
    rewrite list_lookup_insert_eq by (eapply lookup_lt_Some; eauto).
    reflexivity.
  - unfold host_count, after_inc. cbn [hosts].
    rewrite list_lookup_insert_eq by (eapply lookup_lt_Some; eauto).
    reflexivity.
  - split; [| split; [| split; [| split; [| split; [| split]]]]].
    + intros p Hp. cbn [after_inc users].
      now apply list_lookup_insert_ne.
    + intros p Hp. cbn [after_inc clusterUsers].
      now apply list_lookup_insert_ne.
    + intros p Hp. cbn [after_inc hosts].
      now apply list_lookup_insert_ne.
    + reflexivity.
    + reflexivity.
    + intros Hpos.
      destruct (Z.le_gt_cases (wrap32 (value (u_queryCounter u) + 1))
                  (u_maxConcurrentQueries u)) as [Hle|Hgt]; [exact Hle |].
      exfalso. apply (is_Some_None (A := string)). apply Hiff. left.
      split; [exact Hpos | exact Hgt].
    + intros Hpos.
      destruct (Z.le_gt_cases (wrap32 (value (cu_queryCounter cu) + 1))
                  (cu_maxConcurrentQueries cu)) as [Hle|Hgt]; [exact Hle |].
      exfalso. apply (is_Some_None (A := string)). apply Hiff. right.
      split; [exact Hpos | exact Hgt].
Qed.

(** X4.  The test on the cluster user comes second and overwrites the
    error: when the limit of the cluster user is exceeded the error is the
    one of the cluster user, whether or not the limit of the user is
    exceeded too; the error of the user is returned only when the limit of
    the cluster user is not exceeded. *)
Theorem scope_inc_error_precedence (s : scope) (w : world) (u : user)
    (cu : clusterUser) (h : host) :
  users w !! s_user s = Some u ->
  clusterUsers w !! s_clusterUser s = Some cu ->
  hosts w !! s_host s = Some h ->
  (clusterUser_exceeded cu ->
   exists w', scope_inc s w = Done (Some (clusterUser_limit_error cu)) w')
  /\ (user_exceeded u -> ~ clusterUser_exceeded cu ->
      exists w', scope_inc s w = Done (Some (user_limit_error u)) w').
Proof.
  intros Hu Hcu Hh.
  pose proof (scope_inc_run s w u cu h Hu Hcu Hh) as Hrun. cbv zeta in Hrun.
  unfold inc_error, user_exceeded, clusterUser_exceeded in *.
  rewrite <- !Z.ltb_lt.
  destruct (0 <? cu_maxConcurrentQueries cu),
           (cu_maxConcurrentQueries cu
              <? (queryCounter_inc (cu_queryCounter cu)).1);
    cbn [andb] in Hrun; (split; [intros [Ha Hb] | intros [Ha Hb] Hn]);
    try discriminate; try (exfalso; apply Hn; split; reflexivity);
    try (eexists; exact Hrun).
  all: rewrite Ha, Hb in Hrun; cbn [andb] in Hrun; eexists; exact Hrun.
Qed.

End MoreAccounting.

Lemma Done_inj {A : Type} (a b : A) (w w' : world) :
  Done a w = Done b w' -> a = b /\ w = w'.
Proof. intros H. now injection H. Qed.

Section AccountingInvariants.

Context {ext : Externals}.

(** What a [scope.inc] that returned no error has done. *)
Lemma scope_inc_None_inv (s : scope) (w w' : world) :
  scope_inc s w = Done None w' ->
  exists u cu h,
    users w !! s_user s = Some u
    /\ clusterUsers w !! s_clusterUser s = Some cu
    /\ hosts w !! s_host s = Some h
    /\ w' = after_inc s u cu h w
    /\ ~ user_exceeded u /\ ~ clusterUser_exceeded cu.
Proof.
  intros H.
  destruct (scope_inc_Done_lookups _ _ _ _ H) as (u & cu & h & Hu & Hcu & Hh).
  pose proof (scope_inc_run s w u cu h Hu Hcu Hh) as Hrun. cbv zeta in Hrun.
  rewrite Hrun in H.
  pose proof (inc_error_Some_iff u cu) as Hiff.
  destruct (inc_error u cu) as [e|]; [discriminate |].
  apply Done_inj in H as [_ <-].
  exists u, cu, h. repeat (split; [assumption || reflexivity |]).
  split; intros Hex; apply (is_Some_None (A := string)); apply Hiff; auto.
Qed.

(** X5.  Run one after the other, admissions never leave a count above a
    positive limit it respected before: whether [scope.inc] returns an
    error or not, the count of the user stays within the limit of the
    user, and the count of the cluster user within the limit of the
    cluster user. *)
Theorem scope_inc_keeps_within_limits (s : scope) (w w' : world)
    (r : option string) (u : user) (cu : clusterUser) :
  wf_world w ->
  scope_inc s w = Done r w' ->
  users w !! s_user s = Some u ->
  clusterUsers w !! s_clusterUser s = Some cu ->
  (0 < u_maxConcurrentQueries u ->
   value (u_queryCounter u) <= u_maxConcurrentQueries u ->
   exists v : Z,
     user_count w' (s_user s) = Some v /\ v <= u_maxConcurrentQueries u)
  /\ (0 < cu_maxConcurrentQueries cu ->
      value (cu_queryCounter cu) <= cu_maxConcurrentQueries cu ->
      exists v : Z,
        clusterUser_count w' (s_clusterUser s) = Some v
        /\ v <= cu_maxConcurrentQueries cu).
Proof.
  intros Hwf H Hu Hcu.
  destruct r as [e|].
  - destruct (scope_inc_Done_lookups _ _ _ _ H)
      as (u0 & cu0 & h & Hu0 & Hcu0 & Hh).
    assert (u0 = u) as -> by congruence.
    assert (cu0 = cu) as -> by congruence.
    pose proof (scope_inc_run s w u cu h Hu Hcu Hh) as Hrun.
    cbv zeta in Hrun. rewrite Hrun in H.
    destruct (inc_error u cu) as [e'|]; [| discriminate].
    apply Done_inj in H as [_ <-].
    destruct (after_dec_after_inc s w u cu h Hwf Hu Hcu Hh)
      as (E1 & E2 & _).
    split; intros Hpos Hle.
    + exists (value (u_queryCounter u)). split; [| exact Hle].
      unfold user_count. rewrite E1, Hu. reflexivity.
    + exists (value (cu_queryCounter cu)). split; [| exact Hle].
      unfold clusterUser_count. rewrite E2, Hcu. reflexivity.
  - destruct (scope_inc_None_inv s w w' H)
      as (u0 & cu0 & h & Hu0 & Hcu0 & Hh & -> & Bu & Bcu).
    assert (u0 = u) as -> by congruence.
    assert (cu0 = cu) as -> by congruence.
    split; intros Hpos Hle.
    + exists (wrap32 (value (u_queryCounter u) + 1)). split.
      * unfold user_count, after_inc. cbn [users].
        rewrite list_lookup_insert_eq by (eapply lookup_lt_Some; eauto).
        reflexivity.
      * destruct (Z.le_gt_cases (wrap32 (value (u_queryCounter u) + 1))
                    (u_maxConcurrentQueries u)) as [Hle'|Hgt];
          [exact Hle' |].
        exfalso. apply Bu. split; [exact Hpos | exact Hgt].
    + exists (wrap32 (value (cu_queryCounter cu) + 1)). split.
      * unfold clusterUser_count, after_inc. cbn [clusterUsers].
        rewrite list_lookup_insert_eq by (eapply lookup_lt_Some; eauto).
        reflexivity.
      * destruct (Z.le_gt_cases (wrap32 (value (cu_queryCounter cu) + 1))
                    (cu_maxConcurrentQueries cu)) as [Hle'|Hgt];
          [exact Hle' |].
        exfalso. apply Bcu. split; [exact Hpos | exact Hgt].
Qed.

(** X6.  [scope.inc], whatever it returns, and [scope.dec] keep every
    counter of the store within the [uint32] range. *)
Theorem accounting_preserves_wf (s : scope) (w : world) :
  wf_world w ->
  (forall (r : option string) (w' : world),
     scope_inc s w = Done r w' -> wf_world w')
  /\ (forall w' : world, scope_dec s w = Done tt w' -> wf_world w').
Proof.
  intros Hwf. split.
  - intros r w' H.
    destruct (scope_inc_Done_lookups _ _ _ _ H) as (u & cu & h & Hu & Hcu & Hh).
    pose proof (scope_inc_run s w u cu h Hu Hcu Hh) as Hrun.
    cbv zeta in Hrun. rewrite Hrun in H.
    destruct (inc_error u cu) as [e'|].
    + apply Done_inj in H as [_ <-].
      destruct (after_dec_after_inc s w u cu h Hwf Hu Hcu Hh)
        as (E1 & E2 & E3 & _).
      destruct Hwf as [Wu Wcu Wh].
      split; [rewrite E1 | rewrite E2 | rewrite E3]; assumption.
    + apply Done_inj in H as [_ <-]. destruct Hwf as [Wu Wcu Wh].
      split; cbn [after_inc users clusterUsers hosts];
        (apply Forall_insert; [assumption | apply wrap32_range]).
  - intros w' H.
    destruct (scope_dec_Done_lookups _ _ _ H) as (u & cu & h & Hu & Hcu & Hh).
    rewrite (scope_dec_run s w u cu h Hu Hcu Hh) in H.
    apply Done_inj in H as [_ <-]. destruct Hwf as [Wu Wcu Wh].
    split; cbn [after_dec users clusterUsers hosts];
      (apply Forall_insert; [assumption | apply wrap32_range]).
Qed.

End AccountingInvariants.

Lemma both_full_world_wf : wf_world both_full_world.
Proof.
  split; repeat constructor; unfold wf_counter, is_uint32; simpl;
    unfold uint32_modulus; lia.
Qed.

Lemma scope_dec_decrements_witness :
  users idle_world !! s_user sample_scope = Some (sample_user 2 0)
  /\ exists w' : world,
       scope_dec sample_scope idle_world = Done tt w'
       /\ user_count w' (s_user sample_scope) = Some 4294967295.
Proof.
  split; [reflexivity |].
  destruct (scope_dec_decrements sample_scope idle_world
              (sample_user 2 0) (sample_clusterUser 0 0) (sample_host "n2" 0)
              eq_refl eq_refl eq_refl)
    as (w' & Hrun & _ & _ & _ & Hzero & _).
  exists w'. split; [exact Hrun | exact (Hzero eq_refl)].
Defined.

Lemma scope_inc_success_effect_witness :
  exists w' : world,
    @scope_inc sample_ext sample_scope idle_world = Done None w'
    /\ user_count w' (s_user sample_scope) = Some 1
    /\ clusterUser_count w' (s_clusterUser sample_scope) = Some 1
    /\ host_count w' (s_host sample_scope) = Some 1.
Proof.
  eexists. split; [vm_compute; reflexivity |].
  destruct (@scope_inc_success_effect sample_ext sample_scope idle_world _
              ltac:(vm_compute; reflexivity))
    as (u & cu & h & Hu & Hcu & Hh & Cu & Ccu & Ch & _).
  injection Hu as <-. injection Hcu as <-. injection Hh as <-.
  exact (conj Cu (conj Ccu Ch)).
Defined.

Lemma scope_inc_error_precedence_witness :
  user_exceeded (sample_user 2 2)
  /\ clusterUser_exceeded (sample_clusterUser 3 3)
  /\ exists w' : world,
       @scope_inc sample_ext sample_scope both_full_world
       = Done (Some (@clusterUser_limit_error sample_ext
                       (sample_clusterUser 3 3))) w'.
Proof.
  assert (Hcu : clusterUser_exceeded (sample_clusterUser 3 3)).
  { split; reflexivity. }
  split; [split; reflexivity |]. split; [exact Hcu |].
  apply (@scope_inc_error_precedence sample_ext sample_scope both_full_world
           (sample_user 2 2) (sample_clusterUser 3 3) (sample_host "n2" 0)
           eq_refl eq_refl eq_refl).
  exact Hcu.
Defined.

Lemma scope_inc_keeps_within_limits_witness :
  wf_world full_world
  /\ exists (r : option string) (w' : world) (v : Z),
       @scope_inc sample_ext sample_scope full_world = Done r w'
       /\ user_count w' (s_user sample_scope) = Some v
       /\ v <= 2.
Proof.
  split; [exact full_world_wf |].
  assert (Hrun : exists r w',
            @scope_inc sample_ext sample_scope full_world = Done r w')
    by (eexists _, _; vm_compute; reflexivity).
  destruct Hrun as (r & w' & Hrun).
  destruct (@scope_inc_keeps_within_limits sample_ext sample_scope full_world
              w' r (sample_user 2 2) (sample_clusterUser 0 5) full_world_wf
              Hrun eq_refl eq_refl)
    as [Hu _].
  destruct (Hu ltac:(reflexivity) ltac:(simpl; lia)) as (v & Hv & Hle).
  exists r, w', v. split; [exact Hrun |]. split; [exact Hv | exact Hle].
Defined.

Lemma accounting_preserves_wf_witness :
  wf_world full_world
  /\ exists (r : option string) (w' : world),
       @scope_inc sample_ext sample_scope full_world = Done r w'
       /\ wf_world w'.
Proof.
  split; [exact full_world_wf |].
  eexists _, _. split; [vm_compute; reflexivity |].
  eapply (proj1 (@accounting_preserves_wf sample_ext sample_scope full_world
                   full_world_wf)).
  vm_compute; reflexivity.
Defined.

(** ** More on host selection *)

(** X7.  On a cluster without hosts [getHost] panics: the remainder by the
    number of hosts is a division by zero. *)
Theorem getHost_empty_cluster_panics (w : world) (c : ptr) (cl : cluster) :
  clusters w !! c = Some cl ->
  c_hosts cl = [] ->
  getHost c w = Panic.
Proof.
  intros Hc Hempty. unfold getHost.
  erewrite bind_Done;
    [| unfold add_nextIdx, bind, deref; rewrite Hc; reflexivity].
  erewrite bind_Done;
    [| unfold deref; cbn [clusters set_clusters];
       rewrite list_lookup_insert_eq by (eapply lookup_lt_Some; eauto);
       reflexivity].
  cbn [c_hosts with_nextIdx]. rewrite Hempty. reflexivity.
Qed.

Lemma getHost_empty_cluster_panics_witness :
  clusters empty_cluster_world !! 0%nat
  = Some {| nextIdx := 41; c_hosts := []; c_users := ∅;
            killQueryUserName := "admin";
            killQueryUserPassword := "s3cr3t" |}
  /\ getHost 0%nat empty_cluster_world = Panic.
Proof.
  split; [reflexivity |].
  apply (getHost_empty_cluster_panics empty_cluster_world 0%nat _ eq_refl).
  reflexivity.
Defined.

(** X8.  Whatever the loads, [getHost] returns a host of the cluster and
    changes nothing but the cursor of that cluster, which it advances by
    one modulo 2^32: users, cluster users, hosts and their counters, the
    other clusters, the scope identifier and the trace are as before. *)
Theorem getHost_only_advances_cursor (w : world) (c : ptr) (cl : cluster) :
  clusters w !! c = Some cl ->
  (0 < length (c_hosts cl))%nat ->
  Z.of_nat (length (c_hosts cl)) < uint32_modulus ->
  Forall (fun p => is_Some (hosts w !! p)) (c_hosts cl) ->
  exists (p : ptr) (w' : world),
    getHost c w = Done p w'
    /\ p ∈ c_hosts cl
    /\ users w' = users w /\ clusterUsers w' = clusterUsers w
    /\ hosts w' = hosts w /\ scopeId w' = scopeId w /\ trace w' = trace w
    /\ clusters w'
       = <[c := with_nextIdx (wrap32 (nextIdx cl + 1)) cl]> (clusters w).
Proof.
  intros Hc Hn Hfits Hvalid.
  destruct (getHost_selected w c cl Hc Hn Hfits Hvalid)
    as (k & Hk & Hrun & _).
  eexists _, _. split; [exact Hrun |].
  split; [apply scanned_host_elem; exact Hn |].
  repeat (split; [reflexivity |]). reflexivity.
Qed.

Lemma getHost_only_advances_cursor_witness :
  clusters loaded_world !! 0%nat = Some (sample_cluster 9 "admin")
  /\ exists (p : ptr) (w' : world),
       getHost 0%nat loaded_world = Done p w'
       /\ hosts w' = hosts loaded_world
       /\ clusters w' = [sample_cluster 10 "admin"].
Proof.
  split; [reflexivity |].
  destruct (getHost_only_advances_cursor loaded_world 0%nat
              (sample_cluster 9 "admin") eq_refl
              ltac:(simpl; lia) eq_refl
              ltac:(repeat constructor; eexists; reflexivity))
    as (p & w' & Hrun & _ & _ & _ & Hh & _ & _ & Hcl).
  exists p, w'. split; [exact Hrun |]. split; [exact Hh | exact Hcl].
Defined.

(** X9.  [getHost] stops at the first idle host of its scan: when the
    [k]-th host of the scan runs no query and the hosts scanned before it
    all run some, the [k]-th host is returned, even if hosts further on are
    idle too. *)
Theorem getHost_returns_first_idle (w : world) (c : ptr) (cl : cluster)
    (k : nat) :
  clusters w !! c = Some cl ->
  Z.of_nat (length (c_hosts cl)) < uint32_modulus ->
  Forall (fun p => is_Some (hosts w !! p)) (c_hosts cl) ->
  let hs := c_hosts cl in
  let start := start_index (nextIdx cl) (length hs) in
  (k < length hs)%nat ->
  load w (scanned_host hs start k) = 0 ->
  (forall j : nat, (j < k)%nat -> load w (scanned_host hs start j) <> 0) ->
  exists w' : world, getHost c w = Done (scanned_host hs start k) w'.
Proof.
  intros Hc Hfits Hvalid hs start Hk Hzero Hbefore.
  assert (Hn : (0 < length (c_hosts cl))%nat) by (fold hs; lia).
  destruct (getHost_selected w c cl Hc Hn Hfits Hvalid)
    as (k' & Hk' & Hrun & Hsel).
  fold hs in Hk', Hrun, Hsel. fold start in Hrun, Hsel.
  assert (k' = k) as ->.
  { destruct Hsel as [[Hz' Hbefore'] | [Hnone _]].
    - destruct (Nat.lt_trichotomy k' k) as [Hlt|[Heq|Hgt]]; [| exact Heq |].
      + exfalso. exact (Hbefore k' Hlt Hz').
      + exfalso. exact (Hbefore' k Hgt Hzero).
    - exfalso. exact (Hnone k Hk Hzero). }
  eexists. exact Hrun.
Qed.

Lemma getHost_returns_first_idle_witness :
  clusters full_world !! 0%nat = Some (sample_cluster 10 "admin")
  /\ load full_world (scanned_host [0; 1; 2]%nat 2 2) = 0
  /\ exists w' : world,
       getHost 0%nat full_world
       = Done (scanned_host [0; 1; 2]%nat 2 2) w'.
Proof.
  split; [reflexivity |]. split; [reflexivity |].
  apply (getHost_returns_first_idle full_world 0%nat
           (sample_cluster 10 "admin") 2).
  - reflexivity.
  - reflexivity.
  - repeat constructor; eexists; reflexivity.
  - simpl. lia.
  - reflexivity.
  - intros j Hj. destruct j as [|[|j]]; [discriminate | discriminate | lia].
Defined.

(** X10.  On a cluster of one host [getHost] returns that host, whatever
    its load and whatever the cursor. *)
Theorem getHost_single_host (w : world) (c : ptr) (cl : cluster) (p : ptr) :
  clusters w !! c = Some cl ->
  c_hosts cl = [p] ->
  is_Some (hosts w !! p) ->
  exists w' : world, getHost c w = Done p w'.
Proof.
  intros Hc Hhosts Hp.
  destruct (getHost_selected w c cl Hc) as (k & Hk & Hrun & _).
  - rewrite Hhosts. simpl. lia.
  - rewrite Hhosts. reflexivity.
  - rewrite Hhosts. repeat constructor. exact Hp.
  - eexists. rewrite Hrun. f_equal.
    rewrite Hhosts in *. simpl in Hk. assert (k = 0%nat) as -> by lia.
    unfold scanned_host, scan_position. cbn [length].
    rewrite Z.mod_1_r. reflexivity.
Qed.

Lemma getHost_single_host_witness :
  is_Some (hosts single_host_world !! 0%nat)
  /\ exists w' : world, getHost 0%nat single_host_world = Done 0%nat w'.
Proof.
  assert (H : is_Some (hosts single_host_world !! 0%nat))
    by (eexists; reflexivity).
  split; [exact H |].
  apply (getHost_single_host single_host_world 0%nat _ 0%nat eq_refl eq_refl H).
Defined.

(** ** Creating a scope *)

Lemma newScope_run (u cu c : ptr) (w : world) (cl : cluster) :
  clusters w !! c = Some cl ->
  (0 < length (c_hosts cl))%nat ->
  Z.of_nat (length (c_hosts cl)) < uint32_modulus ->
  Forall (fun p => is_Some (hosts w !! p)) (c_hosts cl) ->
  exists k : nat,
    (k < length (c_hosts cl))%nat
    /\ newScope u cu c w
       = Done {| s_id := atomic_AddUint32 (scopeId w) 1;
                 s_host :=
                   scanned_host (c_hosts cl)
                     (start_index (nextIdx cl) (length (c_hosts cl))) k;
                 s_cluster := c; s_user := u; s_clusterUser := cu |}
           (set_clusters (fun l =>
              <[c := with_nextIdx (atomic_AddUint32 (nextIdx cl) 1) cl]> l)
              (set_scopeId (atomic_AddUint32 (scopeId w) 1) w)).
Proof.
  intros Hc Hn Hfits Hvalid.
  destruct (getHost_selected
              (set_scopeId (atomic_AddUint32 (scopeId w) 1) w) c cl
              Hc Hn Hfits Hvalid) as (k & Hk & Hrun & _).
  exists k. split; [exact Hk |].
  unfold newScope.
  erewrite bind_Done; [| reflexivity].
  erewrite bind_Done; [| exact Hrun].
  reflexivity.
Qed.

(** X11.  [newScope] does no accounting: it gives the scope the next
    identifier (one more than the last, modulo 2^32), the pointers it was
    given and a host of the cluster, and it leaves every counter and the
    trace as they are. *)
Theorem newScope_effect (u cu c : ptr) (w : world) (cl : cluster) :
  clusters w !! c = Some cl ->
  (0 < length (c_hosts cl))%nat ->
  Z.of_nat (length (c_hosts cl)) < uint32_modulus ->
  Forall (fun p => is_Some (hosts w !! p)) (c_hosts cl) ->
  exists (s : scope) (w' : world),
    newScope u cu c w = Done s w'
    /\ s_id s = wrap32 (scopeId w + 1) /\ scopeId w' = s_id s
    /\ s_user s = u /\ s_clusterUser s = cu /\ s_cluster s = c
    /\ s_host s ∈ c_hosts cl
    /\ users w' = users w /\ clusterUsers w' = clusterUsers w
    /\ hosts w' = hosts w /\ trace w' = trace w.
Proof.
  intros Hc Hn Hfits Hvalid.
  destruct (newScope_run u cu c w cl Hc Hn Hfits Hvalid) as (k & Hk & Hrun).
  eexists _, _. split; [exact Hrun |].
  cbn [s_id s_user s_clusterUser s_cluster s_host].
  repeat (split; [reflexivity |]).
  split; [apply scanned_host_elem; exact Hn |].
  repeat (split; [reflexivity |]). reflexivity.
Qed.

Lemma newScope_effect_witness :
  clusters idle_world !! 0%nat = Some (sample_cluster 10 "admin")
  /\ exists (s : scope) (w' : world),
       newScope 0%nat 0%nat 0%nat idle_world = Done s w'
       /\ s_id s = 8 /\ scopeId w' = 8
       /\ trace w' = trace idle_world.
Proof.
  split; [reflexivity |].
  destruct (newScope_effect 0%nat 0%nat 0%nat idle_world
              (sample_cluster 10 "admin") eq_refl ltac:(simpl; lia) eq_refl
              ltac:(repeat constructor; eexists; reflexivity))
    as (s & w' & Hrun & Hid & Hsid & _ & _ & _ & _ & _ & _ & _ & Htr).
  exists s, w'. split; [exact Hrun |].
  split; [exact Hid |]. split; [| exact Htr].
  rewrite Hsid. exact Hid.
Defined.

Section Admission.

Context {ext : Externals}.

(** X12.  Admission and release as the callers do them: [newScope], then a
    [scope.inc] that returns no error, then [scope.dec], leave the users,
    the cluster users and the hosts, hence every counter, as they were
    before the scope was created. *)
Theorem newScope_inc_dec_round_trip (u cu c : ptr) (w : world)
    (cl : cluster) :
  wf_world w ->
  clusters w !! c = Some cl ->
  (0 < length (c_hosts cl))%nat ->
  Z.of_nat (length (c_hosts cl)) < uint32_modulus ->
  Forall (fun p => is_Some (hosts w !! p)) (c_hosts cl) ->
  exists (s : scope) (w1 : world),
    newScope u cu c w = Done s w1
    /\ forall w2 : world,
         scope_inc s w1 = Done None w2 ->
         exists w3 : world,
           scope_dec s w2 = Done tt w3
           /\ users w3 = users w /\ clusterUsers w3 = clusterUsers w
           /\ hosts w3 = hosts w.
Proof.
  intros Hwf Hc Hn Hfits Hvalid.
  destruct (newScope_run u cu c w cl Hc Hn Hfits Hvalid) as (k & Hk & Hrun).
  eexists _, _. split; [exact Hrun |].
  set (s := {| s_id := atomic_AddUint32 (scopeId w) 1;
               s_host := scanned_host (c_hosts cl)
                 (start_index (nextIdx cl) (length (c_hosts cl))) k;
               s_cluster := c; s_user := u; s_clusterUser := cu |}).
  set (w1 := set_clusters _ _).
  assert (Hwf1 : wf_world w1) by (destruct Hwf; split; assumption).
  intros w2 Hinc.
  destruct (scope_inc_None_inv s w1 w2 Hinc)
    as (u0 & cu0 & h0 & Hu & Hcu & Hh & -> & _).
  destruct (after_dec_after_inc s w1 u0 cu0 h0 Hwf1 Hu Hcu Hh)
    as (E1 & E2 & E3 & _).
  eexists. split.
  - apply scope_dec_run; cbn [after_inc users clusterUsers hosts];
      apply list_lookup_insert_eq; eapply lookup_lt_Some; eassumption.
  - split; [exact E1 |]. split; [exact E2 | exact E3].
Qed.

End Admission.

Lemma newScope_inc_dec_round_trip_witness :
  wf_world idle_world
  /\ exists (s : scope) (w1 w2 w3 : world),
       newScope 0%nat 0%nat 0%nat idle_world = Done s w1
       /\ @scope_inc sample_ext s w1 = Done None w2
       /\ scope_dec s w2 = Done tt w3
       /\ users w3 = users idle_world
       /\ clusterUsers w3 = clusterUsers idle_world
       /\ hosts w3 = hosts idle_world.
Proof.
  split; [exact idle_world_wf |].
  destruct (@newScope_inc_dec_round_trip sample_ext 0%nat 0%nat 0%nat
              idle_world (sample_cluster 10 "admin") idle_world_wf eq_refl
              ltac:(simpl; lia) eq_refl
              ltac:(repeat constructor; eexists; reflexivity))
    as (s & w1 & Hnew & Hrest).
  eassert (Hc : newScope 0%nat 0%nat 0%nat idle_world = Done _ _)
    by (vm_compute; reflexivity).
  rewrite Hc in Hnew. apply Done_inj in Hnew as [<- <-].
  lazymatch type of Hc with
  | _ = Done ?s0 ?w0 =>
      eassert (Hinc : @scope_inc sample_ext s0 w0 = Done None _)
        by (vm_compute; reflexivity)
  end.
  destruct (Hrest _ Hinc) as (w3 & Hdec & E).
  eexists _, _, _, w3. split; [exact Hc |].
  split; [exact Hinc |]. split; [exact Hdec | exact E].
Defined.

(** ** More on the kill-query protocol *)

Section MoreKillQueries.

Context {ext : Externals}.

Lemma killQueries_range_all_accept (cl : cluster) (query : string) :
  forall (hs_hosts : list host) (hs : list ptr) (w : world),
    Forall2 (fun p h => hosts w !! p = Some h) hs hs_hosts ->
    all_accept cl query hs_hosts (trace w) ->
    killQueries_range cl query hs w
    = Done None
        (set_trace (fun t => t ++ concat (kill_events cl query <$> hs_hosts))
           w).
Proof.
  induction hs_hosts as [|h hs_hosts IH]; intros hs w Hhs Hall.
  - apply Forall2_nil_inv_r in Hhs as ->. cbn [killQueries_range].
    unfold ret. f_equal. apply world_eq; try reflexivity.
    cbn. now rewrite app_nil_r.
  - apply Forall2_cons_inv_r in Hhs as (p & ps & Hp & Hps & ->).
    destruct Hall as [Hacc Hall].
    rewrite (killQueries_range_accept cl query p ps h w Hp Hacc).
    rewrite (IH ps (set_trace (fun t => t ++ kill_events cl query h) w)
               Hps Hall). f_equal.
    apply world_eq; try reflexivity. cbn. now rewrite <- app_assoc.
Qed.

(** X13.  With an administrative user configured, when every host takes
    the request in its turn [killQueries] returns no error, and the trace
    then holds, for each host of the cluster and in the order of the
    cluster, the construction of its request followed by its sending: one
    request per host. *)
Theorem killQueries_all_accept (w : world) (c : ptr) (cl : cluster)
    (ua : string) (elapsed : float64) (hs_hosts : list host) :
  clusters w !! c = Some cl ->
  killQueryUserName cl <> EmptyString ->
  Forall2 (fun p h => hosts w !! p = Some h) (c_hosts cl) hs_hosts ->
  let query := kill_statement ua elapsed in
  all_accept cl query hs_hosts (trace w) ->
  killQueries c ua elapsed w
  = Done None
      (set_trace (fun t => t ++ concat (kill_events cl query <$> hs_hosts)) w)
  /\ sent_requests (concat (kill_events cl query <$> hs_hosts))
     = kill_request cl query <$> hs_hosts.
Proof.
  intros Hc Hadmin Hhs query Hall. split.
  - unfold killQueries.
    erewrite bind_Done; [| unfold deref; rewrite Hc; reflexivity].
    assert (Hlen : (String.length (killQueryUserName cl) =? 0)%nat = false)
      by (destruct (killQueryUserName cl); [contradiction | reflexivity]).
    rewrite Hlen. fold query.
    now apply killQueries_range_all_accept.
  - apply sent_requests_kill_events.
Qed.

(** X14.  [killQueries] touches no counter: whatever the network answers,
    it returns, and the users, cluster users, hosts, clusters and scope
    identifier are as before; it only adds events to the trace, and in
    particular it does not release the scope of the query it kills. *)
Theorem killQueries_only_extends_trace (w : world) (c : ptr) (cl : cluster)
    (ua : string) (elapsed : float64) (hs_hosts : list host) :
  clusters w !! c = Some cl ->
  Forall2 (fun p h => hosts w !! p = Some h) (c_hosts cl) hs_hosts ->
  exists (r : option string) (w' : world) (evs : list event),
    killQueries c ua elapsed w = Done r w'
    /\ users w' = users w /\ clusterUsers w' = clusterUsers w
    /\ hosts w' = hosts w /\ clusters w' = clusters w
    /\ scopeId w' = scopeId w
    /\ trace w' = trace w ++ evs.
Proof.
  intros Hc Hhs. unfold killQueries.
  erewrite bind_Done; [| unfold deref; rewrite Hc; reflexivity].
  destruct (String.length (killQueryUserName cl) =? 0)%nat.
  - exists None, w, []. split; [reflexivity |].
    repeat (split; [reflexivity |]). now rewrite app_nil_r.
  - destruct (killQueries_range_bodies cl (kill_statement ua elapsed)
                hs_hosts (c_hosts cl) w Hhs) as (r & evs & Hrun & _).
    exists r. eexists. exists evs. split; [exact Hrun |].
    repeat (split; [reflexivity |]). reflexivity.
Qed.

Lemma killQueries_without_admin_run (w : world) (c : ptr) (cl : cluster)
    (ua : string) (elapsed : float64) :
  clusters w !! c = Some cl ->
  killQueryUserName cl = EmptyString ->
  killQueries c ua elapsed w = Done None w.
Proof.
  intros Hc Hname. unfold killQueries.
  erewrite bind_Done; [| unfold deref; rewrite Hc; reflexivity].
  rewrite Hname. reflexivity.
Qed.

(** X15.  A cluster made by [newCluster] has no administrative user: its
    cursor is a [uint32], the clusters that existed keep their place, and
    [killQueries] on the new cluster returns no error and sends nothing,
    whatever hosts it was given. *)
Theorem newCluster_kill_disabled (w : world) (hs : list ptr)
    (cu : gmap string ptr) (now : Z) (ua : string) (elapsed : float64) :
  exists (c : ptr) (w1 : world) (cl : cluster),
    newCluster hs cu now w = Done c w1
    /\ clusters w1 !! c = Some cl
    /\ c_hosts cl = hs /\ c_users cl = cu
    /\ is_uint32 (nextIdx cl)
    /\ (forall (p : ptr) (cl0 : cluster),
          clusters w !! p = Some cl0 -> clusters w1 !! p = Some cl0)
    /\ killQueries c ua elapsed w1 = Done None w1.
Proof.
  eexists _, _, _. split; [reflexivity |].
  assert (Hc : clusters
                 (set_clusters (fun l =>
                    l ++ [{| nextIdx := wrap32 now; c_hosts := hs;
                             c_users := cu;
                             killQueryUserName := EmptyString;
                             killQueryUserPassword := EmptyString |}]) w)
               !! length (clusters w)
               = Some {| nextIdx := wrap32 now; c_hosts := hs; c_users := cu;
                         killQueryUserName := EmptyString;
                         killQueryUserPassword := EmptyString |}).
  { cbn [clusters set_clusters]. now apply list_lookup_middle. }
  split; [exact Hc |].
  split; [reflexivity |]. split; [reflexivity |].
  split; [apply wrap32_range |]. split.
  - intros p cl0 Hp. cbn [clusters set_clusters].
    now apply lookup_app_l_Some.
  - apply (killQueries_without_admin_run _ _ _ _ _ Hc). reflexivity.
Qed.

End MoreKillQueries.

Lemma killQueries_all_accept_witness :
  clusters idle_world !! 0%nat = Some (sample_cluster 10 "admin")
  /\ exists w' : world,
       @killQueries healthy_ext 0%nat "agent" (F_finite 11 (-1)) idle_world
       = Done None w'
       /\ length (sent_requests (trace w')) = 3%nat.
Proof.
  split; [reflexivity |].
  destruct (@killQueries_all_accept healthy_ext idle_world 0%nat
              (sample_cluster 10 "admin") "agent" (F_finite 11 (-1))
              [sample_host "n1" 0; sample_host "n2" 0; sample_host "n3" 0]
              eq_refl ltac:(discriminate) ltac:(repeat constructor))
    as [Hrun _].
  - repeat (split; [split; [reflexivity | eexists; split; reflexivity] |]).
    exact I.
  - eexists. split; [exact Hrun | reflexivity].
Defined.

Lemma killQueries_only_extends_trace_witness :
  clusters idle_world !! 0%nat = Some (sample_cluster 10 "admin")
  /\ exists (r : option string) (w' : world),
       @killQueries sample_ext 0%nat "agent" (F_finite 11 (-1)) idle_world
       = Done r w'
       /\ users w' = users idle_world /\ hosts w' = hosts idle_world.
Proof.
  split; [reflexivity |].
  destruct (@killQueries_only_extends_trace sample_ext idle_world 0%nat
              (sample_cluster 10 "admin") "agent" (F_finite 11 (-1))
              [sample_host "n1" 0; sample_host "n2" 0; sample_host "n3" 0]
              eq_refl ltac:(repeat constructor))
    as (r & w' & evs & Hrun & Hu & _ & Hh & _).
  exists r, w'. split; [exact Hrun |]. split; [exact Hu | exact Hh].
Defined.

(** ** The description of a scope *)

Section Description.

Context {ext : Externals}.

(** X16.  [String] reads the live counters and changes nothing: called
    right after a [scope.inc] that returned no error, it returns the
    identifier of the scope and, for the user, the cluster user and the
    host, the quoted name with the count this admission has just raised. *)
Theorem scope_String_after_inc (s : scope) (w w' : world) :
  scope_inc s w = Done None w' ->
  exists u cu h,
    users w !! s_user s = Some u
    /\ clusterUsers w !! s_clusterUser s = Some cu
    /\ hosts w !! s_host s = Some h
    /\ scope_String s w'
       = Done ("[ Id: " +:+ fmt_d (s_id s) +:+ "; User "
               +:+ strconv_Quote (u_name u) +:+ "("
               +:+ fmt_d (wrap32 (value (u_queryCounter u) + 1))
               +:+ ") proxying as " +:+ strconv_Quote (cu_name cu) +:+ "("
               +:+ fmt_d (wrap32 (value (cu_queryCounter cu) + 1))
               +:+ ") to " +:+ strconv_Quote (Host (addr h)) +:+ "("
               +:+ fmt_d (wrap32 (value (h_queryCounter h) + 1))
               +:+ ") ]") w'.
Proof.
  intros H.
  destruct (scope_inc_None_inv s w w' H)
    as (u & cu & h & Hu & Hcu & Hh & -> & _).
  exists u, cu, h. repeat (split; [assumption |]).
  assert (Hu' : users (after_inc s u cu h w) !! s_user s
                = Some (with_u_queryCounter
                          (queryCounter_inc (u_queryCounter u)).2 u)).
  { cbn [after_inc users]. apply list_lookup_insert_eq.
    eapply lookup_lt_Some; eauto. }
  assert (Hcu' : clusterUsers (after_inc s u cu h w) !! s_clusterUser s
                 = Some (with_cu_queryCounter
                           (queryCounter_inc (cu_queryCounter cu)).2 cu)).
  { cbn [after_inc clusterUsers]. apply list_lookup_insert_eq.
    eapply lookup_lt_Some; eauto. }
  assert (Hh' : hosts (after_inc s u cu h w) !! s_host s
                = Some (with_h_queryCounter
                          (queryCounter_inc (h_queryCounter h)).2 h)).
  { cbn [after_inc hosts]. apply list_lookup_insert_eq.
    eapply lookup_lt_Some; eauto. }
  unfold scope_String.
  erewrite bind_Done; [| unfold deref; rewrite Hu'; reflexivity].
  erewrite bind_Done;
    [| unfold runningQueries, load_counter, bind, deref; rewrite Hu';
       reflexivity].
  erewrite bind_Done; [| unfold deref; rewrite Hcu'; reflexivity].
  erewrite bind_Done;
    [| unfold runningQueries, load_counter, bind, deref; rewrite Hcu';
       reflexivity].
  erewrite bind_Done; [| unfold deref; rewrite Hh'; reflexivity].
  erewrite bind_Done;
    [| unfold runningQueries, load_counter, bind, deref; rewrite Hh';
       reflexivity].
  reflexivity.
Qed.

End Description.

Lemma scope_String_after_inc_witness :
  exists (w' : world) (msg : string),
    @scope_inc sample_ext sample_scope idle_world = Done None w'
    /\ @scope_String sample_ext sample_scope w' = Done msg w'.
Proof.
  eexists _, _. split; [vm_compute; reflexivity |].
  destruct (@scope_String_after_inc sample_ext sample_scope idle_world _
              ltac:(vm_compute; reflexivity))
    as (u & cu & h & Hu & Hcu & Hh & Hstr).
  injection Hu as <-. injection Hcu as <-. injection Hh as <-.
  exact Hstr.
Defined.

(** ** Admission and selection together *)

Lemma other_host_exists (hs : list ptr) (p : ptr) :
  NoDup hs -> (2 <= length hs)%nat ->
  exists q : ptr, q ∈ hs /\ q <> p.
Proof.
  intros Hnd Hlen.
  destruct hs as [|a [|b hs]]; simpl in Hlen; try lia.
  destruct (decide (a = p)) as [->|Ha].
  - exists b. split; [set_solver |].
    apply NoDup_cons in Hnd as [Hnotin _]. set_solver.
  - exists a. split; [set_solver | exact Ha].
Qed.

Section Spreading.

Context {ext : Externals}.

(** X17.  Accounting steers the next selection away: on a cluster of at
    least two different hosts that all run no query, once a scope has been
    created and admitted, the next [getHost] returns an idle host that is
    not the host of that scope, also when the cursor wraps. *)
Theorem next_selection_avoids_admitted_host (u cu c : ptr)
    (w w1 w2 : world) (cl : cluster) (s : scope) :
  clusters w !! c = Some cl ->
  (2 <= length (c_hosts cl))%nat ->
  Z.of_nat (length (c_hosts cl)) < uint32_modulus ->
  NoDup (c_hosts cl) ->
  Forall (fun p => is_Some (hosts w !! p)) (c_hosts cl) ->
  Forall (fun p => load w p = 0) (c_hosts cl) ->
  newScope u cu c w = Done s w1 ->
  scope_inc s w1 = Done None w2 ->
  exists (p : ptr) (w3 : world),
    getHost c w2 = Done p w3
    /\ p ∈ c_hosts cl /\ p <> s_host s /\ load w2 p = 0.
Proof.
  intros Hc Hlen Hfits Hnd Hvalid Hidle Hnew Hinc.
  assert (Hn : (0 < length (c_hosts cl))%nat) by lia.
  destruct (newScope_run u cu c w cl Hc Hn Hfits Hvalid) as (k & Hk & Hrun).
  rewrite Hrun in Hnew. apply Done_inj in Hnew as [<- <-].
  set (s := {| s_id := atomic_AddUint32 (scopeId w) 1;
               s_host := scanned_host (c_hosts cl)
                 (start_index (nextIdx cl) (length (c_hosts cl))) k;
               s_cluster := c; s_user := u; s_clusterUser := cu |}) in *.
  set (cl' := with_nextIdx (atomic_AddUint32 (nextIdx cl) 1) cl) in *.
  destruct (scope_inc_None_inv s _ w2 Hinc)
    as (u0 & cu0 & h0 & Hu & Hcu & Hh & -> & _).
  set (w1 := set_clusters _ _) in *.
  set (w2 := after_inc s u0 cu0 h0 w1).
  assert (Hshost : s_host s ∈ c_hosts cl)
    by (apply scanned_host_elem; exact Hn).
  assert (Hh0 : value (h_queryCounter h0) = 0).
  { rewrite Forall_forall in Hidle. specialize (Hidle _ Hshost).
    unfold load in Hidle. change (hosts w1) with (hosts w) in Hh.
    now rewrite Hh in Hidle. }
  assert (Hc2 : clusters w2 !! c = Some cl').
  { cbn. apply list_lookup_insert_eq. eapply lookup_lt_Some; eauto. }
  assert (Hvalid2 : Forall (fun p => is_Some (hosts w2 !! p)) (c_hosts cl')).
  { eapply Forall_impl; [exact Hvalid |]. intros p Hp. cbn [w2 after_inc hosts].
    apply lookup_lt_is_Some. rewrite length_insert.
    now apply lookup_lt_is_Some. }
  assert (Hload_s : load w2 (s_host s) <> 0).
  { unfold load. cbn [w2 after_inc hosts].
    rewrite list_lookup_insert_eq by (eapply lookup_lt_Some; eauto).
    cbn. rewrite Hh0. discriminate. }
  destruct (other_host_exists (c_hosts cl) (s_host s) Hnd Hlen)
    as (q & Hq & Hqs).
  assert (Hload_q : load w2 q = 0).
  { unfold load. cbn [w2 after_inc hosts].
    rewrite list_lookup_insert_ne by congruence.
    rewrite Forall_forall in Hidle. exact (Hidle q Hq). }
  destruct (getHost_selected w2 c cl' Hc2 Hn Hfits Hvalid2)
    as (k2 & Hk2 & Hrun2 & Hsel).
  eexists _, _. split; [exact Hrun2 |].
  assert (Hzero : load w2 (scanned_host (c_hosts cl')
                    (start_index (nextIdx cl') (length (c_hosts cl'))) k2)
                  = 0).
  { destruct Hsel as [[Hz _] | [Hnone _]]; [exact Hz |].
    exfalso.
    destruct (scanned_host_onto (c_hosts cl')
                (start_index (nextIdx cl') (length (c_hosts cl'))) q Hq)
      as (j & Hj & Ej).
    apply (Hnone j Hj). rewrite Ej. exact Hload_q. }
  split; [apply (scanned_host_elem (c_hosts cl')); exact Hn |].
  split; [| exact Hzero].
  intros E. apply Hload_s. rewrite <- E. exact Hzero.
Qed.

End Spreading.

Lemma next_selection_avoids_admitted_host_witness :
  Forall (fun p => load wrapping_world p = 0)
    (c_hosts (sample_cluster 4294967294 "admin"))
  /\ exists (s : scope) (w1 w2 : world) (p : ptr) (w3 : world),
       newScope 0%nat 0%nat 0%nat wrapping_world = Done s w1
       /\ @scope_inc sample_ext s w1 = Done None w2
       /\ getHost 0%nat w2 = Done p w3
       /\ p <> s_host s /\ load w2 p = 0.
Proof.
  assert (Hidle : Forall (fun p => load wrapping_world p = 0)
                    (c_hosts (sample_cluster 4294967294 "admin")))
    by (repeat constructor).
  split; [exact Hidle |].
  eassert (Hnew : newScope 0%nat 0%nat 0%nat wrapping_world = Done _ _)
    by (vm_compute; reflexivity).
  lazymatch type of Hnew with
  | _ = Done ?s0 ?w0 =>
      eassert (Hinc : @scope_inc sample_ext s0 w0 = Done None _)
        by (vm_compute; reflexivity)
  end.
  destruct (@next_selection_avoids_admitted_host sample_ext 0%nat 0%nat 0%nat
              wrapping_world _ _ (sample_cluster 4294967294 "admin") _
              eq_refl ltac:(simpl; lia) eq_refl ltac:(compute_done)
              ltac:(repeat constructor; eexists; reflexivity) Hidle
              Hnew Hinc)
    as (p & w3 & Hrun & _ & Hne & Hzero).
  eexists _, _, _, p, w3. split; [exact Hnew |]. split; [exact Hinc |].
  split; [exact Hrun |]. split; [exact Hne | exact Hzero].
Defined.
